(** * kdlgo: the node parser and its position-tracking reader

    A shallow embedding of [read_node.go] (readNodes, readNode,
    readArgOrProp, skipUntilNewLine, readUntilSignificant) and of the
    [reader] type they drive, followed by the properties the specification
    states about them.

    Conventions.
    - A byte and a rune are both integers ([Z]): a byte lies in 0..255, a
      rune is a Unicode code point.  Go's [int] counters (line, pos, depth)
      are 64-bit; no input that fits in memory makes them wrap, so they are
      unbounded integers here.
    - The [bufio.Reader] wrapped by [reader] reads from an in-memory source
      ([strings.NewReader] in the tests); its observable state is the list of
      bytes not consumed yet.  [ReadRune] followed by [UnreadRune] leaves
      that list unchanged.
    - Go functions that mutate [*reader] return the new reader first.
    - A Go [error] is [option error]: [None] is [nil]. *)

From Stdlib Require Import ZArith Ascii String Lia.
From stdpp Require Import base list strings gmap.

Local Open Scope Z_scope.

(** ** Errors *)

Inductive error : Type :=
| io_EOF                            (* io.EOF *)
| ErrInvalidSyntax
| ErrUnexpectedEOF
| ErrInvalidNumericValue
| ErrInvalidKeyChar
| errInvalidInitialCharInBareIdent
| errInvalidBareIdent
| errUnexpectedSemicolon            (* unexpected ';' not terminating a node *)
| errUnexpectedRightBracket         (* unexpected top-level '}' *)
| errUnexpectedLineCont             (* unexpected top-level '\' *)
| errUnexpectedSlashdash            (* unexpected slashdash *)
| errUnexpectedBareIdentifier
| errUnexpectedTokenAfterValue
| errUnexpectedTokenAfterIdentifier
| errSignificantInCont.             (* unexpected significant token in escline *)

Definition is_EOF (e : option error) : bool :=
  match e with Some io_EOF => true | _ => false end.

Definition is_nil (e : option error) : bool :=
  match e with None => true | Some _ => false end.

(** ** Bytes and runes *)

Abbreviation rune := Z.

(** The code of an ASCII character, to write ['}'] as [c "}"]. *)
Definition c (a : ascii) : Z := Z.of_N (N_of_ascii a).

(** The bytes of a literal. *)
Definition bytes (s : string) : list Z := map c (list_ascii_of_string s).

Definition RuneError : rune := 65533.   (* U+FFFD *)

Definition is_cont (b : Z) : bool := (128 <=? b) && (b <=? 191).

(** [utf8.DecodeRune]: the first rune of [bs] and its width in bytes; an
    invalid or truncated encoding is [(RuneError, 1)], no bytes at all is
    [(RuneError, 0)]. *)
Definition DecodeRune (bs : list Z) : rune * nat :=
  match bs with
  | [] => (RuneError, 0%nat)
  | b0 :: tl =>
    if (0 <=? b0) && (b0 <? 128) then (b0, 1%nat)
    else if (194 <=? b0) && (b0 <=? 223) then
      match tl with
      | b1 :: _ =>
        if is_cont b1 then ((b0 - 192) * 64 + (b1 - 128), 2%nat)
        else (RuneError, 1%nat)
      | _ => (RuneError, 1%nat)
      end
    else if (224 <=? b0) && (b0 <=? 239) then
      match tl with
      | b1 :: b2 :: _ =>
        let lo := if b0 =? 224 then 160 else 128 in
        let hi := if b0 =? 237 then 159 else 191 in
        if (lo <=? b1) && (b1 <=? hi) && is_cont b2
        then ((b0 - 224) * 4096 + (b1 - 128) * 64 + (b2 - 128), 3%nat)
        else (RuneError, 1%nat)
      | _ => (RuneError, 1%nat)
      end
    else if (240 <=? b0) && (b0 <=? 244) then
      match tl with
      | b1 :: b2 :: b3 :: _ =>
        let lo := if b0 =? 240 then 144 else 128 in
        let hi := if b0 =? 244 then 143 else 191 in
        if (lo <=? b1) && (b1 <=? hi) && is_cont b2 && is_cont b3
        then ((b0 - 240) * 262144 + (b1 - 128) * 4096
              + (b2 - 128) * 64 + (b3 - 128), 4%nat)
        else (RuneError, 1%nat)
      | _ => (RuneError, 1%nat)
      end
    else (RuneError, 1%nat)
  end.

(** [utf8.RuneLen]: the number of bytes of the encoding of a rune, -1 when
    the rune has none. *)
Definition RuneLen (r : rune) : Z :=
  if r <? 0 then -1
  else if r <? 128 then 1
  else if r <? 2048 then 2
  else if (55296 <=? r) && (r <=? 57343) then -1
  else if r <? 65536 then 3
  else if r <=? 1114111 then 4
  else -1.

(** ** The buffered source *)

(** [bufio.Reader.ReadRune]: rune, width, error; nothing is consumed at the
    end of the input. *)
Definition ReadRune (bs : list Z) : rune * nat * option error :=
  match bs with
  | [] => (0, 0%nat, Some io_EOF)
  | _ => let '(r, size) := DecodeRune bs in (r, size, None)
  end.

(** [bufio.Reader.ReadByte]. *)
Definition ReadByte (bs : list Z) : Z * list Z * option error :=
  match bs with
  | [] => (0, [], Some io_EOF)
  | b :: tl => (b, tl, None)
  end.

(** [bufio.Reader.Peek]: the next [n] bytes; fewer, with [io.EOF], when the
    input is shorter. *)
Definition Peek (bs : list Z) (n : nat) : list Z * option error :=
  if (n <=? length bs)%nat then (take n bs, None) else (bs, Some io_EOF).

(** ** The reader (type [reader], first file of the package) *)

Record reader : Type := mkReader {
  input : list Z;      (* what [r.reader] has not delivered yet *)
  line : Z;
  pos : Z;
  depth : Z
}.

Definition wrapReader (s : list Z) : reader :=
  {| input := s; line := 1; pos := 0; depth := 0 |}.

Definition setInput (r : reader) (bs : list Z) : reader :=
  {| input := bs; line := line r; pos := pos r; depth := depth r |}.

Definition setPosition (r : reader) (l p : Z) : reader :=
  {| input := input r; line := l; pos := p; depth := depth r |}.

Definition setDepth (r : reader) (d : Z) : reader :=
  {| input := input r; line := line r; pos := pos r; depth := d |}.

(** The rune classes the reader and the parser consult.  Their definitions
    are not among the sources of the package, so the development is
    parametric in them; [KDL.classes] below is the instance used to run the
    code. *)
Record RuneClasses : Type := mkRuneClasses {
  isNewLine : rune -> bool;
  isWhitespace : rune -> bool;
  isValidValueTerminator : rune -> bool
}.

(** Modelled from the spec: the byte sequences the parser looks ahead for
    are declared outside read_node.go; their names and section 4.3 give
    the slashdash, CR LF and the comment delimiters. *)
Definition charsSlashDash : list Z := [47; 45].           (* /- *)
Definition charsCRLF : list Z := [13; 10].
Definition charsStartComment : list Z := [47; 47].        (* // *)
Definition charsStartCommentBlock : list Z := [47; 42].   (* /* *)
Definition charsEndCommentBlock : list Z := [42; 47].

(** The loop over consumed bytes shared by readBytes and discardBytes. *)
Fixpoint trackBytes (bs : list Z) (wasCR : bool) (l p : Z) : Z * Z :=
  match bs with
  | [] => (l, p)
  | b :: tl =>
    if (b =? 10) && negb wasCR then trackBytes tl false (l + 1) 0
    else if b =? 13 then trackBytes tl true (l + 1) 0
    else trackBytes tl false l (p + 1)
  end.

Section Reader.

Variable C : RuneClasses.

Definition readRune (r : reader) : reader * rune * option error :=
  match ReadRune (input r) with
  | (ch, _, Some e) => (r, ch, Some e)
  | (ch, size, None) =>
    let r1 := setInput r (drop size (input r)) in
    if isNewLine C ch then
      if ch =? 13 then
        match ReadRune (input r1) with
        | (_, _, Some _) => (r1, ch, None)
        | (next, nsize, None) =>
          if next =? 10 then (r1, ch, None)       (* UnreadRune *)
          else
            (setPosition (setInput r1 (drop nsize (input r1))) (line r + 1) 0,
             ch, None)
        end
      else (setPosition r1 (line r + 1) 0, ch, None)
    else (setPosition r1 (line r) (pos r + 1), ch, None)
  end.

Fixpoint discardRunes (r : reader) (count : nat) : reader :=
  match count with
  | O => r
  | S n => discardRunes (fst (fst (readRune r))) n
  end.

Definition readByte (r : reader) : reader * Z * option error :=
  let '(b, rest, err) := ReadByte (input r) in
  let r1 := setInput r rest in
  if (b =? 10) || (b =? 13)
  then (setPosition r1 (line r + 1) 0, b, err)
  else (setPosition r1 (line r) (pos r + 1), b, err).

Definition discardByte (r : reader) : reader := fst (fst (readByte r)).

(** readBytes is only reached from discardBytes, when fewer than [count]
    bytes are left: the first [Read] hands over all of them, the second
    reports [io.EOF]. *)
Definition readBytes (r : reader) (count : nat) : reader * option error :=
  match count, input r with
  | O, _ => (r, None)
  | _, [] => (r, Some io_EOF)
  | _, bs =>
    let got := take count bs in
    let '(l, p) := trackBytes got false (line r) (pos r) in
    let r1 := setPosition (setInput r (drop count bs)) l p in
    if (length got <? count)%nat then (r1, Some io_EOF) else (r1, None)
  end.

Definition peekBytes (r : reader) (count : nat) : list Z * option error :=
  Peek (input r) count.

Definition discardBytes (r : reader) (count : nat) : reader :=
  match peekBytes r count with
  | (_, Some _) => fst (readBytes r count)
  | (bs, None) =>
    let '(l, p) := trackBytes bs false (line r) (pos r) in
    setPosition (setInput r (drop count (input r))) l p
  end.

Definition peekRune (r : reader) : rune * option error :=
  let '(ch, _, err) := ReadRune (input r) in (ch, err).

Definition bytes_eqb (a b : list Z) : bool := bool_decide (a = b).

Definition isNext (r : reader) (expected : list Z) : bool * option error :=
  match peekBytes r (length expected) with
  | (_, Some e) => (false, Some e)
  | (next, None) => (bytes_eqb next expected, None)
  end.

End Reader.

(** ** The document model *)

Abbreviation Identifier := string.

(** A type hint is optional: [NoHint()] is [None], [Hint(s)] is [Some s]. *)
Abbreviation TypeHint := (option string).

Definition NoHint : TypeHint := None.
Definition Hint (s : Identifier) : TypeHint := Some s.
Definition IsAbsent (h : TypeHint) : bool :=
  match h with None => true | Some _ => false end.

(** Modelled from the spec: the declaration of [Value] is not among the
    sources.  Section 3 has it as a tagged union over String, Integer,
    Float, Bool and Null, each with an optional type hint; a Float is kept
    as the decimal it was written as, [mantissa * 10 ^ exponent]. *)
Inductive ValueData : Type :=
| StringData (s : string)
| IntegerData (z : Z)
| FloatData (mantissa exponent : Z)
| BoolData (b : bool)
| NullData.

Record Value : Type := mkValue {
  Data : ValueData;
  ValueTypeHint : TypeHint
}.

Definition NewStringValue (s : string) (h : TypeHint) : Value := mkValue (StringData s) h.
Definition NewIntegerValue (z : Z) (h : TypeHint) : Value := mkValue (IntegerData z) h.
Definition NewFloatValue (m e : Z) (h : TypeHint) : Value := mkValue (FloatData m e) h.
Definition NewBoolValue (b : bool) (h : TypeHint) : Value := mkValue (BoolData b) h.
Definition NewNullValue (h : TypeHint) : Value := mkValue NullData h.

(** [v.TypeHint = hint] *)
Definition setValueTypeHint (v : Value) (h : TypeHint) : Value := mkValue (Data v) h.

(** Modelled from the spec: the declaration of [Node] and its methods are
    not among the sources.  Section 3: optional type hint, name, ordered
    arguments, a mapping from keys to values in which the last write to a
    key wins, ordered children. *)
#[warnings="-register-all"]
Inductive Node : Type := mkNode {
  TypeHintOf : TypeHint;
  Name : Identifier;
  Args : list Value;
  Props : gmap string Value;
  Children : list Node
}.

Definition NewNode (name : Identifier) : Node := mkNode NoHint name [] ∅ [].

Definition setTypeHint (n : Node) (h : TypeHint) : Node :=
  mkNode h (Name n) (Args n) (Props n) (Children n).

Definition setName (n : Node) (name : Identifier) : Node :=
  mkNode (TypeHintOf n) name (Args n) (Props n) (Children n).

Definition AddArg (n : Node) (v : Value) : Node :=
  mkNode (TypeHintOf n) (Name n) (Args n ++ [v]) (Props n) (Children n).

Definition AddArgValue (n : Node) (v : Value) : Node := AddArg n v.

Definition SetPropValue (n : Node) (key : Identifier) (v : Value) : Node :=
  mkNode (TypeHintOf n) (Name n) (Args n) (<[key := v]> (Props n)) (Children n).

Definition AddChild (n child : Node) : Node :=
  mkNode (TypeHintOf n) (Name n) (Args n) (Props n) (Children n ++ [child]).

(** [for i := range children { node.AddChild(children[i]) }] *)
Definition AddChildren (n : Node) (children : list Node) : Node :=
  foldl AddChild n children.

(** ** The scanners the node parser calls *)

Inductive identifierStopMode : Type :=
| stopModeFreestanding
| stopModeEquals
| stopModeSemicolon.

(** readMaybeTypeHint, readIdentifier and readValue are called by
    read_node.go and defined elsewhere in the package.  The parser is
    parametric in them; results come in Go's order. *)
Record Scanners : Type := mkScanners {
  readMaybeTypeHint : reader -> reader * TypeHint * option error;
  readIdentifier :
    reader -> identifierStopMode -> reader * Identifier * option error * bool;
  readValue : reader -> reader * Value * option error
}.

(** ** read_node.go *)

Section Parser.

Variable C : RuneClasses.
Variable Sc : Scanners.

(** The body of the loop of skipUntilNewLine; every turn that does not leave
    the loop discards one byte, so the length of the input bounds the
    number of turns. *)
Fixpoint skipUntilNewLine_loop (fuel : nat) (r : reader) (afterBreak : bool)
  : reader * option error :=
  match fuel with
  | O => (r, None)
  | S fuel' =>
    match isNext r charsCRLF with
    | (true, None) =>
      if afterBreak then (discardBytes r 2, None)
      else (discardByte r, None)
    | _ =>
      match peekRune r with
      | (_, Some e) => if is_EOF (Some e) then (r, None) else (r, Some e)
      | (ch, None) =>
        if isNewLine C ch then
          if afterBreak then (discardByte r, None) else (r, None)
        else skipUntilNewLine_loop fuel' (discardByte r) afterBreak
      end
    end
  end.

Definition skipUntilNewLine (r : reader) (afterBreak : bool) : reader * option error :=
  skipUntilNewLine_loop (S (length (input r))) r afterBreak.

(** Whether skipUntilNewLine stops at the head of [bs]: a CR LF pair or a
    rune that is a line break. *)
Definition atLineBreak (bs : list Z) : bool :=
  match isNext (wrapReader bs) charsCRLF with
  | (true, None) => true
  | _ =>
    match peekRune (wrapReader bs) with
    | (ch, None) => isNewLine C ch
    | _ => false
    end
  end.

(** No position inside [text], followed by [tail], is a line break. *)
Fixpoint noLineBreak (text tail : list Z) : bool :=
  match text with
  | [] => true
  | _ :: text' => negb (atLineBreak (text ++ tail)) && noLineBreak text' tail
  end.

(** A line break that is CR LF or a single byte, [rest] being what
    follows it. *)
Definition plainLineBreak (nl rest : list Z) : bool :=
  match nl with
  | [a; b] => (a =? 13) && (b =? 10)
  | [b] =>
    (0 <=? b) && (b <? 128) && isNewLine C b
    && negb ((b =? 13) && bool_decide (head rest = Some 10))
  | _ => false
  end.

(** The loop labelled [inner] of readUntilSignificant, entered after the
    opening [/*] was discarded.  [None] stands for [continue outer]. *)
Fixpoint skipBlockComment (fuel : nat) (r : reader) (depth : Z)
  : reader * option (option error) :=
  match fuel with
  | O => (r, Some (Some io_EOF))
  | S fuel' =>
    match isNext r charsStartCommentBlock with
    | (_, Some e) => (r, Some (Some e))
    | (true, None) => skipBlockComment fuel' (discardBytes r 2) (depth + 1)
    | (false, None) =>
      match isNext r charsEndCommentBlock with
      | (_, Some e) => (r, Some (Some e))
      | (true, None) =>
        let r1 := discardBytes r 2 in
        if depth - 1 <=? 0 then (r1, None)
        else skipBlockComment fuel' r1 (depth - 1)
      | (false, None) => skipBlockComment fuel' (discardByte r) depth
      end
    end
  end.

(** The text between the [/*] and the [*/] of a closed block comment:
    bytes other than [/] and [*], and closed block comments. *)
Inductive commentBody : list Z -> Prop :=
| commentBody_nil : commentBody []
| commentBody_byte b s :
    b <> c "/" -> b <> c "*" -> commentBody s -> commentBody (b :: s)
| commentBody_nested s1 s2 :
    commentBody s1 -> commentBody s2 ->
    commentBody (charsStartCommentBlock ++ s1 ++ charsEndCommentBlock ++ s2).

(** How the loop over a block comment goes on once a [*/] was consumed
    at nesting [depth]. *)
Definition afterCommentEnd (r : reader) (depth : Z)
  : reader * option (option error) :=
  if depth - 1 <=? 0 then (r, None)
  else skipBlockComment (S (length (input r))) r (depth - 1).

(** Blanks of one byte each. *)
Definition asciiBlanks (ws : list Z) : Prop :=
  Forall (fun b => 0 <= b < 128 /\ isWhitespace C b = true) ws.

(** The loop labelled [outer] of readUntilSignificant. *)
Fixpoint readUntilSignificant_loop (fuel : nat) (r : reader)
    (insideNode escapedLine : bool) : reader * option error :=
  match fuel with
  | O => (r, Some io_EOF)
  | S fuel' =>
    match peekRune r with
    | (_, Some e) => (r, Some e)
    | (ch, None) =>
      if isWhitespace C ch then
        readUntilSignificant_loop fuel'
          (discardBytes r (Z.to_nat (RuneLen ch))) insideNode escapedLine
      else if (ch =? c "\") && insideNode then
        readUntilSignificant_loop fuel' (discardByte r) insideNode true
      else
        match isNext r charsStartComment with
        | (true, None) => skipUntilNewLine (discardBytes r 2) true
        | _ =>
          match isNext r charsStartCommentBlock with
          | (true, None) =>
            let r1 := discardBytes r 2 in
            match skipBlockComment (S (length (input r1))) r1 1 with
            | (r2, Some err) => (r2, err)
            | (r2, None) =>
              readUntilSignificant_loop fuel' r2 insideNode escapedLine
            end
          | _ =>
            if escapedLine then
              if isNewLine C ch then
                match skipUntilNewLine r true with
                | (r1, Some e) => (r1, Some e)
                | (r1, None) =>
                  readUntilSignificant_loop fuel' r1 insideNode false
                end
              else (r, Some errSignificantInCont)
            else (r, None)
          end
        end
    end
  end.

Definition readUntilSignificant (r : reader) (insideNode : bool)
  : reader * option error :=
  readUntilSignificant_loop (S (length (input r))) r insideNode false.

(** What the first loop inside readNodes (lines 21 to 60) ends with: a
    [return] of the function with the given [err], or a [break] towards the
    code that reads a node. *)
Inductive innerExit : Type :=
| Return (err : option error)
| Break.

(** [if err == io.EOF && r.depth == 0 { err = nil }] *)
Definition eofAtTopLevel (r : reader) (e : error) : option error :=
  if is_EOF (Some e) && (depth r =? 0) then None else Some e.

(** The first loop inside readNodes.  A turn that does not leave the loop
    has skipped a line break, so the length of the input bounds the number
    of turns. *)
Fixpoint readNodes_inner_loop (fuel : nat) (r : reader) : reader * innerExit :=
  match fuel with
  | O => (r, Return (Some io_EOF))
  | S fuel' =>
    match readUntilSignificant r false with
    | (r1, Some e) => (r1, Return (eofAtTopLevel r1 e))
    | (r1, None) =>
      match peekRune r1 with
      | (_, Some e) => (r1, Return (eofAtTopLevel r1 e))
      | (ch, None) =>
        if negb (isNewLine C ch) then
          if ch =? c ";" then (r1, Return (Some errUnexpectedSemicolon))
          else if ch =? c "}" then
            (discardByte r1,
             Return (if depth r1 =? 0 then Some errUnexpectedRightBracket
                     else None))
          else if ch =? c "\" then (r1, Return (Some errUnexpectedLineCont))
          else (r1, Break)
        else
          match skipUntilNewLine r1 true with
          | (r2, Some e) => (r2, Return (Some e))
          | (r2, None) => readNodes_inner_loop fuel' r2
          end
      end
    end
  end.

Definition readNodes_inner (r : reader) : reader * innerExit :=
  readNodes_inner_loop (S (length (input r))) r.

(** The value branch of readArgOrProp (line 234 to the end). *)
Definition readArgOrProp_value (r : reader) (dest : Node) (discard : bool)
    (hint : TypeHint) : reader * Node * option error :=
  let '(r1, v, err) := readValue Sc r in
  match err with
  | Some e => (r1, dest, Some e)
  | None =>
    let v := setValueTypeHint v hint in
    match peekRune r1 with
    | (ch, err) =>
      if is_EOF err
         || (match err with None => isValidValueTerminator C ch | _ => false end)
      then (r1, if discard then dest else AddArg dest v, None)
      else
        match err with
        | Some e => (r1, dest, Some e)
        | None => (r1, dest, Some errUnexpectedTokenAfterValue)
        end
    end
  end.

Definition readArgOrProp (r : reader) (dest : Node) (discard : bool)
  : reader * Node * option error :=
  let '(r1, hint, err) := readMaybeTypeHint Sc r in
  match err with
  | Some e => (r1, dest, Some e)
  | None =>
    if IsAbsent hint then
      let '(r2, i, err, quoted) := readIdentifier Sc r1 stopModeEquals in
      match err with
      | None =>
        match peekRune r2 with
        | (ch, Some e) =>
          if is_EOF (Some e) then
            if quoted then
              (r2, if discard then dest
                   else AddArg dest (NewStringValue i NoHint), None)
            else (r2, dest, Some errUnexpectedBareIdentifier)
          else (r2, dest, Some e)
        | (ch, None) =>
          if isValidValueTerminator C ch then
            if quoted then
              (r2, if discard then dest
                   else AddArgValue dest (NewStringValue i NoHint), None)
            else (r2, dest, Some errUnexpectedBareIdentifier)
          else if ch =? c "=" then
            let r3 := discardByte r2 in
            let '(r4, v, err) := readValue Sc r3 in
            match err with
            | Some e => (r4, dest, Some e)
            | None => (r4, if discard then dest else SetPropValue dest i v, None)
            end
          else (r2, dest, Some errUnexpectedTokenAfterIdentifier)
        end
      | Some _ => readArgOrProp_value r2 dest discard hint
      end
    else readArgOrProp_value r1 dest discard hint
  end.

(** [if slashdash { return node, errUnexpectedSlashdash }; return node, nil] *)
Definition endOfNode (slashdash : bool) : option error :=
  if slashdash then Some errUnexpectedSlashdash else None.

(** readNodes and readNode call each other, and their loops have no bound
    that is evident from their text.  Each function is first written as
    one pass through its body, with what it calls next as a parameter; the
    recursion is closed further down. *)

Abbreviation nodesResult := (option (reader * list Node * option error)).
Abbreviation nodeResult := (option (reader * Node * option error)).

(** One turn of the outer [for] of readNodes, [nodes] being the slice
    built so far; [again] is the next turn. *)
Definition readNodes_turn (readNode : reader -> nodeResult)
    (again : reader -> list Node -> nodesResult)
    (r : reader) (nodes : list Node) : nodesResult :=
  match readNodes_inner r with
  | (r1, Return err) => Some (r1, nodes, err)
  | (r1, Break) =>
    (* A "slashdash" comment silences the whole node *)
    match isNext r1 charsSlashDash with
    | (_, Some e) => Some (r1, nodes, Some e)
    | (slashdash, None) =>
      let r2 := if slashdash then discardBytes r1 2 else r1 in
      match readUntilSignificant r2 true with
      | (r3, Some e) =>
        Some (r3, nodes,
              Some (if is_EOF (Some e) then errUnexpectedSlashdash else e))
      | (r3, None) =>
        match readNode r3 with
        | None => None
        | Some (r4, _, Some e) => Some (r4, nodes, Some e)
        | Some (r4, node, None) =>
          again r4 (if slashdash then nodes else nodes ++ [node])
        end
      end
    end
  end.

(** readNode up to its [for]; [body] is that loop. *)
Definition readNode_header (body : reader -> Node -> nodeResult) (r : reader)
  : nodeResult :=
  let node := NewNode "" in
  match readMaybeTypeHint Sc r with
  | (r1, _, Some e) => Some (r1, node, Some e)
  | (r1, hint, None) =>
    let node := setTypeHint node hint in
    match readIdentifier Sc r1 stopModeSemicolon with
    | (r2, _, Some e, _) => Some (r2, node, Some e)
    | (r2, name, None, _) => body r2 (setName node name)
    end
  end.

(** One turn of the [for] of readNode; [again] is the next turn. *)
Definition readNode_turn (readNodes : reader -> nodesResult)
    (again : reader -> Node -> nodeResult)
    (r : reader) (node : Node) : nodeResult :=
  match readUntilSignificant r true with
  | (r1, Some e) => Some (r1, node, if is_EOF (Some e) then None else Some e)
  | (r1, None) =>
    let '(found, err) := isNext r1 charsSlashDash in
    let slashdash := found in
    let r2 :=
      if slashdash && is_nil err then discardBytes r1 2 else r1 in
    match readUntilSignificant r2 true with
    | (r3, Some e) =>
      Some (r3, node,
            Some (if is_EOF (Some e) then errUnexpectedSlashdash else e))
    | (r3, None) =>
      match peekRune r3 with
      | (_, Some e) => Some (r3, node, Some e)
      | (ch, None) =>
        if isNewLine C ch then
          Some (discardRunes C r3 1, node, endOfNode slashdash)
        else if ch =? c ";" then
          Some (discardByte r3, node, endOfNode slashdash)
        else if ch =? c "}" then
          Some (r3, node, endOfNode slashdash)
        else if ch =? c "{" then
          let r4 := discardByte r3 in
          let r5 := setDepth r4 (depth r4 + 1) in
          match readNodes r5 with
          | None => None
          | Some (r6, _, Some e) => Some (r6, node, Some e)
          | Some (r6, children, None) =>
            let r7 := setDepth r6 (depth r6 - 1) in
            let node' :=
              if slashdash then node else AddChildren node children in
            again (discardByte r7) node'
          end
        else
          match readArgOrProp r3 node slashdash with
          | (r4, node', Some e) => Some (r4, node', Some e)
          | (r4, node', None) => again r4 node'
          end
      end
    end
  end.

(** Each call and each turn of a loop spends one unit of [fuel]; [None] is
    "fuel exhausted", never a result of the Go code.  [readNodes_loop] is
    the outer [for] of readNodes, [readNode_loop] the [for] of readNode. *)
Fixpoint readNodes_loop (fuel : nat) (r : reader) (nodes : list Node) {struct fuel}
  : nodesResult :=
  match fuel with
  | O => None
  | S fuel' => readNodes_turn (readNode fuel') (readNodes_loop fuel') r nodes
  end

with readNode (fuel : nat) (r : reader) {struct fuel} : nodeResult :=
  match fuel with
  | O => None
  | S fuel' => readNode_header (readNode_loop fuel') r
  end

with readNode_loop (fuel : nat) (r : reader) (node : Node) {struct fuel}
  : nodeResult :=
  match fuel with
  | O => None
  | S fuel' =>
    readNode_turn (fun r' => readNodes_loop fuel' r' []) (readNode_loop fuel')
      r node
  end.

(** [nodes = make([]Node, 0, 3)], then the loop. *)
Definition readNodes (fuel : nat) (r : reader) : nodesResult :=
  readNodes_loop fuel r [].

End Parser.

(** ** An instance to run the parser: rune classes and scanners

    The helpers below are called by read_node.go and exercised by
    read_value_test.go, but their text is not among the sources.  They are
    written from section 4.2 of the specification and from what the tests
    expect, and serve to run the parser on concrete documents. *)

Module KDL.

(** Modelled from the spec: isNewLine is missing; the line breaks of the
    format are CR, LF, NEL, FF, LS and PS. *)
Definition isNewLine (ch : rune) : bool :=
  (ch =? 13) || (ch =? 10) || (ch =? 133) || (ch =? 12)
  || (ch =? 8232) || (ch =? 8233).

(** Modelled from the spec: isWhitespace is missing; the blanks of the
    format are the tab, the space and the Unicode spaces. *)
Definition isWhitespace (ch : rune) : bool :=
  (ch =? 9) || (ch =? 32) || (ch =? 160) || (ch =? 5760)
  || ((8192 <=? ch) && (ch <=? 8202))
  || (ch =? 8239) || (ch =? 8287) || (ch =? 12288) || (ch =? 65279).

(** Modelled from the spec: isValidValueTerminator is missing; section 4.3
    lists whitespace, newline, [;] and [}] (end of input is tested apart). *)
Definition isValidValueTerminator (ch : rune) : bool :=
  isWhitespace ch || isNewLine ch || (ch =? c ";") || (ch =? c "}").

Definition classes : RuneClasses :=
  mkRuneClasses isNewLine isWhitespace isValidValueTerminator.

(** [string(chars)]: the UTF-8 text of a sequence of runes. *)
Definition EncodeRune (r : rune) : list Z :=
  if r <? 128 then [r]
  else if r <? 2048 then [192 + r / 64; 128 + r mod 64]
  else if r <? 65536 then
    [224 + r / 4096; 128 + (r / 64) mod 64; 128 + r mod 64]
  else [240 + r / 262144; 128 + (r / 4096) mod 64;
        128 + (r / 64) mod 64; 128 + r mod 64].

Definition string_of_bytes (bs : list Z) : string :=
  string_of_list_ascii (map (fun b => ascii_of_N (Z.to_N b)) bs).

Definition string_of_runes (rs : list rune) : string :=
  string_of_bytes (concat (map EncodeRune rs)).

(** Modelled from the spec: readQuotedString is missing.  From the opening
    quote to the matching unescaped one, with the single-character escapes;
    an unterminated string is InvalidSyntax. *)
Definition unescape (ch : rune) : option rune :=
  if ch =? 34 then Some 34
  else if ch =? c "\" then Some (c "\")
  else if ch =? c "/" then Some (c "/")
  else if ch =? c "n" then Some 10
  else if ch =? c "r" then Some 13
  else if ch =? c "t" then Some 9
  else if ch =? c "b" then Some 8
  else if ch =? c "f" then Some 12
  else None.

Fixpoint readQuotedString_loop (fuel : nat) (r : reader) (acc : list rune)
  : reader * string * option error :=
  match fuel with
  | O => (r, EmptyString, Some ErrInvalidSyntax)
  | S fuel' =>
    match readRune classes r with
    | (r1, _, Some _) => (r1, EmptyString, Some ErrInvalidSyntax)
    | (r1, ch, None) =>
      if ch =? 34 then (r1, string_of_runes (rev acc), None)
      else if ch =? c "\" then
        match readRune classes r1 with
        | (r2, _, Some _) => (r2, EmptyString, Some ErrInvalidSyntax)
        | (r2, e, None) =>
          match unescape e with
          | Some x => readQuotedString_loop fuel' r2 (x :: acc)
          | None => (r2, EmptyString, Some ErrInvalidSyntax)
          end
        end
      else readQuotedString_loop fuel' r1 (ch :: acc)
    end
  end.

Definition readQuotedString (r : reader) : reader * string * option error :=
  match peekRune r with
  | (ch, None) =>
    if ch =? 34 then
      readQuotedString_loop (S (length (input r))) (discardByte r) []
    else (r, EmptyString, Some ErrInvalidSyntax)
  | (_, Some _) => (r, EmptyString, Some ErrInvalidSyntax)
  end.

(** Modelled from the spec: readRawString is missing.  [r], then N pound
    signs, a quote, the text as it is, and a quote followed by N pound
    signs; when the input ends before that the tests expect [io.EOF]. *)
Fixpoint countPounds (fuel : nat) (r : reader) (n : nat) : reader * nat :=
  match fuel with
  | O => (r, n)
  | S fuel' =>
    match peekRune r with
    | (ch, None) =>
      if ch =? c "#" then countPounds fuel' (discardByte r) (S n) else (r, n)
    | _ => (r, n)
    end
  end.

Fixpoint readRawString_loop (fuel : nat) (r : reader) (closing : list Z)
    (acc : list rune) : reader * string * option error :=
  match fuel with
  | O => (r, EmptyString, Some io_EOF)
  | S fuel' =>
    match isNext r closing with
    | (true, None) =>
      (discardBytes r (length closing), string_of_runes (rev acc), None)
    | _ =>
      match readRune classes r with
      | (r1, _, Some _) => (r1, EmptyString, Some io_EOF)
      | (r1, ch, None) => readRawString_loop fuel' r1 closing (ch :: acc)
      end
    end
  end.

Definition readRawString (r : reader) : reader * string * option error :=
  match peekRune r with
  | (ch, None) =>
    if ch =? c "r" then
      let fuel := S (length (input r)) in
      let '(r1, n) := countPounds fuel (discardByte r) O in
      match peekRune r1 with
      | (q, None) =>
        if q =? 34 then
          readRawString_loop fuel (discardByte r1) (34 :: replicate n (c "#")) []
        else (r1, EmptyString, Some ErrInvalidSyntax)
      | (_, Some _) => (r1, EmptyString, Some io_EOF)
      end
    else (r, EmptyString, Some ErrInvalidSyntax)
  | (_, Some _) => (r, EmptyString, Some ErrInvalidSyntax)
  end.

(** Whether a raw string starts here: [r] followed by a quote or a pound. *)
Definition startsRawString (r : reader) : bool :=
  match input r with
  | a :: b :: _ => (a =? c "r") && ((b =? 34) || (b =? c "#"))
  | _ => false
  end.

Definition readString (r : reader) : reader * string * option error :=
  if startsRawString r then readRawString r else readQuotedString r.

(** Modelled from the spec: the characters of a bare identifier; it "must
    not contain whitespace, [=] or structural characters". *)
Definition isBareIdentifierChar (ch : rune) : bool :=
  negb (isWhitespace ch || isNewLine ch || (ch <=? 32)
        || (ch =? c "\") || (ch =? c "/") || (ch =? c "(") || (ch =? c ")")
        || (ch =? c "{") || (ch =? c "}") || (ch =? c "<") || (ch =? c ">")
        || (ch =? c ";") || (ch =? c "[") || (ch =? c "]") || (ch =? c "=")
        || (ch =? c ",") || (ch =? 34)).

Definition isDigit (ch : rune) : bool := (48 <=? ch) && (ch <=? 57).

Fixpoint readBareIdentifier_loop (fuel : nat) (r : reader) (acc : list rune)
  : reader * list rune :=
  match fuel with
  | O => (r, acc)
  | S fuel' =>
    match peekRune r with
    | (ch, None) =>
      if isBareIdentifierChar ch
      then readBareIdentifier_loop fuel' (fst (fst (readRune classes r))) (ch :: acc)
      else (r, acc)
    | _ => (r, acc)
    end
  end.

(** Modelled from the spec: readBareIdentifier is missing.  It fails on a
    digit (or a character no identifier may hold) in first place, and on
    [-] followed by a digit; it stops before whitespace and structural
    characters, and before [=] when asked to stop at equals, which is an
    invalid character otherwise.  A failed read leaves the reader where it
    was, so that the caller may read a value instead. *)
Definition readBareIdentifier (r : reader) (mode : identifierStopMode)
  : reader * Identifier * option error :=
  match peekRune r with
  | (_, Some e) => (r, EmptyString, Some e)
  | (ch, None) =>
    if isDigit ch || negb (isBareIdentifierChar ch)
    then (r, EmptyString, Some errInvalidInitialCharInBareIdent)
    else
      let '(r1, acc) := readBareIdentifier_loop (S (length (input r))) r [] in
      match rev acc with
      | a :: b :: _ =>
        if (a =? c "-") && isDigit b then (r, EmptyString, Some errInvalidBareIdent)
        else
          match peekRune r1, mode with
          | (e, None), stopModeFreestanding
          | (e, None), stopModeSemicolon =>
            if e =? c "=" then (r, EmptyString, Some ErrInvalidKeyChar)
            else (r1, string_of_runes (rev acc), None)
          | _, _ => (r1, string_of_runes (rev acc), None)
          end
      | _ =>
          match peekRune r1, mode with
          | (e, None), stopModeFreestanding
          | (e, None), stopModeSemicolon =>
            if e =? c "=" then (r, EmptyString, Some ErrInvalidKeyChar)
            else (r1, string_of_runes (rev acc), None)
          | _, _ => (r1, string_of_runes (rev acc), None)
          end
      end
  end.

(** Modelled from the spec: readIdentifier is missing.  A quoted or a raw
    string read by the string scanners, else a bare identifier; the last
    component tells the former from the latter. *)
Definition readIdentifier (r : reader) (mode : identifierStopMode)
  : reader * Identifier * option error * bool :=
  match peekRune r with
  | (ch, None) =>
    if (ch =? 34) || startsRawString r then
      let '(r1, s, err) := readString r in (r1, s, err, true)
    else
      let '(r1, s, err) := readBareIdentifier r mode in (r1, s, err, false)
  | (_, Some e) => (r, EmptyString, Some e, false)
  end.

(** Modelled from the spec: readMaybeTypeHint is missing.  Nothing when the
    next rune is not [(]; else one identifier and [)], anything else in
    between being InvalidSyntax and the end of the input
    unexpected-end-of-input. *)
Definition readMaybeTypeHint (r : reader) : reader * TypeHint * option error :=
  match peekRune r with
  | (ch, None) =>
    if ch =? c "(" then
      match readIdentifier (discardByte r) stopModeFreestanding with
      | (r1, _, Some e, _) =>
        match input r1 with
        | [] => (r1, NoHint, Some ErrUnexpectedEOF)
        | _ => (r1, NoHint, Some e)
        end
      | (r1, i, None, _) =>
        match peekRune r1 with
        | (_, Some _) => (r1, NoHint, Some ErrUnexpectedEOF)
        | (e, None) =>
          if e =? c ")" then (discardByte r1, Hint i, None)
          else (r1, NoHint, Some ErrInvalidSyntax)
        end
      end
    else (r, NoHint, None)
  | (_, Some _) => (r, NoHint, None)
  end.

(** Modelled from the spec: readBool and readNull are missing; the
    literals [true], [false] and [null], anything else is InvalidSyntax. *)
Definition readBool (r : reader) : reader * bool * option error :=
  match isNext r (bytes "true") with
  | (true, None) => (discardBytes r 4, true, None)
  | _ =>
    match isNext r (bytes "false") with
    | (true, None) => (discardBytes r 5, false, None)
    | _ => (r, false, Some ErrInvalidSyntax)
    end
  end.

Definition readNull (r : reader) : reader * option error :=
  match isNext r (bytes "null") with
  | (true, None) => (discardBytes r 4, None)
  | _ => (r, Some ErrInvalidSyntax)
  end.

Definition digitValue (base : Z) (ch : rune) : option Z :=
  let d := if (48 <=? ch) && (ch <=? 57) then ch - 48
           else if (97 <=? ch) && (ch <=? 102) then ch - 87
           else if (65 <=? ch) && (ch <=? 70) then ch - 55
           else -1 in
  if (0 <=? d) && (d <? base) then Some d else None.

(** Digits in [base], with underscores between them: the value they add to
    [acc] and how many there were. *)
Fixpoint readDigits (fuel : nat) (r : reader) (base acc : Z) (n : nat)
  : reader * Z * nat :=
  match fuel with
  | O => (r, acc, n)
  | S fuel' =>
    match peekRune r with
    | (ch, None) =>
      match digitValue base ch with
      | Some d => readDigits fuel' (discardByte r) base (acc * base + d) (S n)
      | None =>
        if (ch =? c "_") && (0 <? n)%nat
        then readDigits fuel' (discardByte r) base acc n
        else (r, acc, n)
      end
    | _ => (r, acc, n)
    end
  end.

Definition radixPrefix (r : reader) : option Z :=
  match input r with
  | a :: b :: _ =>
    if a =? c "0" then
      if b =? c "x" then Some 16
      else if b =? c "o" then Some 8
      else if b =? c "b" then Some 2
      else None
    else None
  | _ => None
  end.

Definition readSign (r : reader) : reader * Z :=
  match peekRune r with
  | (ch, None) =>
    if ch =? c "-" then (discardByte r, -1)
    else if ch =? c "+" then (discardByte r, 1)
    else (r, 1)
  | _ => (r, 1)
  end.

(** Modelled from the spec: readNumber is missing.  A sign, then a literal
    with prefix [0x], [0o] or [0b], or decimal digits with an optional
    fraction and exponent.  The tests read [4e3] as the integer 4000, so a
    literal without fraction and with an exponent that is not negative is
    an Integer; every other literal with fraction or exponent is a Float. *)
Definition readNumber (r : reader) : reader * Value * option error :=
  let fuel := S (length (input r)) in
  let bad := NewNullValue NoHint in
  let '(r1, sign) := readSign r in
  match radixPrefix r1 with
  | Some base =>
    let '(r2, v, n) := readDigits fuel (discardBytes r1 2) base 0 O in
    match n with
    | O => (r2, bad, Some ErrInvalidNumericValue)
    | _ => (r2, NewIntegerValue (sign * v) NoHint, None)
    end
  | None =>
    let '(r2, ip, n) := readDigits fuel r1 10 0 O in
    match n with
    | O => (r2, bad, Some ErrInvalidSyntax)
    | _ =>
      let '(r3, m, fd, dotErr) :=
        match peekRune r2 with
        | (ch, None) =>
          if ch =? c "." then
            let '(r', m', n') := readDigits fuel (discardByte r2) 10 ip O in
            (r', m', Some (Z.of_nat n'), (n' =? 0)%nat)
          else (r2, ip, None, false)
        | _ => (r2, ip, None, false)
        end in
      if dotErr then (r3, bad, Some ErrInvalidSyntax)
      else
        let '(r4, ex, exErr) :=
          match peekRune r3 with
          | (ch, None) =>
            if (ch =? c "e") || (ch =? c "E") then
              let '(r', s) := readSign (discardByte r3) in
              let '(r'', e, n') := readDigits fuel r' 10 0 O in
              (r'', Some (s * e), (n' =? 0)%nat)
            else (r3, None, false)
          | _ => (r3, None, false)
          end in
        if exErr then (r4, bad, Some ErrInvalidSyntax)
        else
          match fd, ex with
          | None, None => (r4, NewIntegerValue (sign * m) NoHint, None)
          | None, Some e =>
            if 0 <=? e then (r4, NewIntegerValue (sign * m * 10 ^ e) NoHint, None)
            else (r4, NewFloatValue (sign * m) e NoHint, None)
          | Some d, None => (r4, NewFloatValue (sign * m) (- d) NoHint, None)
          | Some d, Some e => (r4, NewFloatValue (sign * m) (e - d) NoHint, None)
          end
    end
  end.

(** Modelled from the spec: readValue is missing.  An optional type hint,
    then the scanner the next rune selects; a rune that starts no value is
    InvalidSyntax. *)
Definition readValue (r : reader) : reader * Value * option error :=
  let bad := NewNullValue NoHint in
  match readMaybeTypeHint r with
  | (r1, _, Some e) => (r1, bad, Some e)
  | (r1, hint, None) =>
    match peekRune r1 with
    | (_, Some e) => (r1, bad, Some e)
    | (ch, None) =>
      if (ch =? 34) || startsRawString r1 then
        match readString r1 with
        | (r2, s, None) => (r2, NewStringValue s hint, None)
        | (r2, _, Some e) => (r2, bad, Some e)
        end
      else if (ch =? c "t") || (ch =? c "f") then
        match readBool r1 with
        | (r2, b, None) => (r2, NewBoolValue b hint, None)
        | (r2, _, Some e) => (r2, bad, Some e)
        end
      else if ch =? c "n" then
        match readNull r1 with
        | (r2, None) => (r2, NewNullValue hint, None)
        | (r2, Some e) => (r2, bad, Some e)
        end
      else if isDigit ch || (ch =? c "-") || (ch =? c "+") then
        match readNumber r1 with
        | (r2, v, None) => (r2, setValueTypeHint v hint, None)
        | (r2, _, Some e) => (r2, bad, Some e)
        end
      else (r1, bad, Some ErrInvalidSyntax)
    end
  end.

Definition scanners : Scanners :=
  mkScanners readMaybeTypeHint readIdentifier readValue.

(** As the helpers of read_value_test.go do: skip what is insignificant,
    then scan, [n] times over. *)
Fixpoint scanAll {A : Type} (scan : reader -> reader * A * option error)
    (n : nat) (r : reader) : list (A * option error) :=
  match n with
  | O => []
  | S n' =>
    let '(r1, a, e) := scan (fst (readUntilSignificant classes r true)) in
    (a, e) :: scanAll scan n' r1
  end.

(** The fuel readNodes is given for the document [s]. *)
Definition fuelFor (s : list Z) : nat := 4 * length s + 8.

(** readNodes on a fresh reader over the document [s]. *)
Definition parse (s : list Z) : option (reader * list Node * option error) :=
  readNodes classes scanners (fuelFor s) (wrapReader s).

End KDL.

(** ** Documents and readers the properties below are run on *)

Module Doc.

(** [node 1 key="val" { child; }] *)
Definition roundTrip : list Z :=
  bytes "node 1 key=" ++ [34] ++ bytes "val" ++ [34] ++ bytes " { child; }".

(** The node the specification expects from [roundTrip]. *)
Definition roundTripNode : Node :=
  mkNode NoHint "node"
    [NewIntegerValue 1 NoHint]
    {[ "key"%string := NewStringValue "val" NoHint ]}
    [mkNode NoHint "child" [] ∅ []].

(** A node with an empty children block, a line feed, a second node. *)
Definition blockThenLine : list Z := bytes "a {}" ++ [10] ++ bytes "b".

(** The body of the first node of [blockThenLine], from its brace on. *)
Definition blockBody : list Z := bytes "{}" ++ [10] ++ bytes "b".

(** A document that is one node, one byte long, with no line break. *)
Definition oneByte : list Z := bytes "a".

(** A block comment that is never closed. *)
Definition openComment : list Z := bytes "/* abc".

(** A nested block comment, closed, and a node after it. *)
Definition nestedComment : list Z := bytes "/* /* */ */xy".

(** A closing brace at the top level. *)
Definition strayBrace : list Z := bytes "}".

(** A carriage return followed by two letters. *)
Definition crThenLetters : list Z := [13] ++ bytes "ab".

(** Two backslashes, a line feed and an argument, as in a node body. *)
Definition twoBackslashes : list Z := bytes "\\" ++ [10] ++ bytes "1".

(** The same after a node name. *)
Definition nodeTwoBackslashes : list Z := bytes "a " ++ twoBackslashes.

(** One backslash, blanks, a line feed and an argument. *)
Definition escline : list Z := bytes "\  " ++ [10] ++ bytes "1".

(** A backslash followed by an argument on the same line. *)
Definition backslashThenToken : list Z := bytes "\ 1".

(** A quoted identifier followed by a blank; a key, [=] and a value. *)
Definition quotedThenBlank : list Z := [34] ++ bytes "v" ++ [34] ++ bytes " ;".
Definition keyEqualsValue : list Z := bytes "k=1 ".

(** A suppressed node before a node; in a node body, a suppressed
    argument, a suppressed children block. *)
Definition suppressedNode : list Z := bytes "/-a" ++ [10] ++ bytes "bb".
Definition suppressedArg : list Z := bytes " /-1 2".
Definition suppressedChildren : list Z := bytes " /-{ b } 2".

(** Every kind of suppressed unit in one node; a suppressed argument that
    is malformed. *)
Definition suppressedUnits : list Z :=
  bytes "a /-1 2 /-k=1 j=3 /-{ b } { cc }".
Definition suppressedMalformed : list Z := bytes "a /-(x 2".

(** A comment, a line feed, an argument; the same after a node and its
    first argument. *)
Definition commentThenLine : list Z := bytes "// c" ++ [10] ++ bytes "2".
Definition nodeCommentThenLine : list Z := bytes "a 1 " ++ commentThenLine.

(** Inputs of read_value_test.go. *)
Definition testQuoted : list Z :=
  [34] ++ bytes "Hi!" ++ [34]
  ++ [34] ++ bytes "Why, \" ++ [34] ++ bytes "hello \nthere!" ++ [34]
  ++ [34] ++ bytes "foo" ++ [10; 9] ++ bytes "\n\" ++ [34] ++ bytes "bar" ++ [34]
  ++ bytes "extra".
Definition testRaw : list Z :=
  bytes "r###" ++ [34] ++ bytes "oh" ++ [10; 9] ++ bytes "Hi" ++ [34]
  ++ bytes "##there##!" ++ [10] ++ [34] ++ bytes "###r" ++ [34]
  ++ bytes "extra data".
Definition testDecimal : list Z :=
  bytes "0.0 0 4 +2 -6 1_33_7 4e3 2e+3 7e-2 -1.1e-2".
Definition testRadix : list Z :=
  bytes "0xc 0xa_0_f -0xD2 0o1_0 -0o26 0b1 -0b1000_0001".
Definition testIdentifiers : list Z :=
  bytes "foo " ++ [34] ++ bytes "bar baz" ++ [34] ++ bytes " radio r#"
  ++ [34] ++ bytes "gaga" ++ [34] ++ bytes "# ".
Definition testValues : list Z :=
  bytes "true (temp)-3.5 (" ++ [34] ++ bytes "hey" ++ [34] ++ bytes ")null "
  ++ [34] ++ bytes "foo" ++ [34] ++ bytes " what".

(** A comment ended by NEL, the line break U+0085, two bytes long, and an
    argument; the same after a node and its first argument. *)
Definition commentThenNel : list Z := bytes "// c" ++ [194; 133] ++ bytes "2".
Definition nodeCommentThenNel : list Z := bytes "a 1 " ++ commentThenNel.


End Doc.


(** ** The errors of read_node.go *)



(** * Properties *)

(** Boolean tests of the decoder, as arithmetic facts. *)
Ltac bool_hyps :=
  repeat match goal with
  | H : _ && _ = true |- _ => apply andb_true_iff in H as [? ?]
  | H : (_ <=? _) = true |- _ => apply Z.leb_le in H
  | H : (_ <=? _) = false |- _ => apply Z.leb_gt in H
  | H : (_ <? _) = true |- _ => apply Z.ltb_lt in H
  | H : (_ <? _) = false |- _ => apply Z.ltb_ge in H
  | H : (_ =? _) = true |- _ => apply Z.eqb_eq in H
  | H : (_ =? _) = false |- _ => apply Z.eqb_neq in H
  end.

(** ** The reader *)

Section ReaderFacts.

Variable C : RuneClasses.

Lemma isNext_input r r' e : input r = input r' -> isNext r e = isNext r' e.
Proof. unfold isNext, peekBytes. intros ->. reflexivity. Qed.

Lemma peekRune_input r r' : input r = input r' -> peekRune r = peekRune r'.
Proof. unfold peekRune. intros ->. reflexivity. Qed.

Lemma input_discardByte r : input (discardByte r) = tail (input r).
Proof.
  unfold discardByte, readByte, ReadByte.
  destruct (input r) as [|b tl]; cbn [fst].
  - destruct ((0 =? 10) || (0 =? 13)); reflexivity.
  - destruct ((b =? 10) || (b =? 13)); reflexivity.
Qed.

Lemma depth_discardByte r : depth (discardByte r) = depth r.
Proof.
  unfold discardByte, readByte, ReadByte.
  destruct (input r) as [|b tl]; cbn [fst].
  - destruct ((0 =? 10) || (0 =? 13)); reflexivity.
  - destruct ((b =? 10) || (b =? 13)); reflexivity.
Qed.

Lemma input_discardBytes r n : input (discardBytes r n) = drop n (input r).
Proof.
  unfold discardBytes, peekBytes, Peek, readBytes.
  destruct (n <=? length (input r))%nat.
  - destruct (trackBytes _ _ _ _). reflexivity.
  - destruct n as [|n]; [reflexivity|].
    destruct (input r) as [|b tl] eqn:E; cbn [fst].
    + rewrite E. reflexivity.
    + destruct (trackBytes _ _ _ _).
      destruct (_ <? _)%nat; reflexivity.
Qed.

Lemma depth_discardBytes r n : depth (discardBytes r n) = depth r.
Proof.
  unfold discardBytes, peekBytes, Peek, readBytes.
  destruct (n <=? length (input r))%nat.
  - destruct (trackBytes _ _ _ _). reflexivity.
  - destruct n as [|n]; [reflexivity|].
    destruct (input r) as [|b tl] eqn:E; cbn [fst].
    + reflexivity.
    + destruct (trackBytes _ _ _ _).
      destruct (_ <? _)%nat; reflexivity.
Qed.

(** isNext answers [true] exactly when the input starts with the bytes
    asked for. *)
Lemma isNext_true r e :
  isNext r e = (true, None) <-> exists tl, input r = e ++ tl.
Proof.
  unfold isNext, peekBytes, Peek, bytes_eqb. split.
  - destruct (Nat.leb_spec (length e) (length (input r))); [|discriminate].
    intros [= Hd]. apply bool_decide_eq_true in Hd.
    exists (drop (length e) (input r)).
    rewrite <- Hd at 1. symmetry. apply take_drop.
  - intros [tl ->]. rewrite length_app.
    destruct (Nat.leb_spec (length e) (length e + length tl)); [|lia].
    rewrite take_app_length. by rewrite bool_decide_eq_true_2.
Qed.

(** With fewer bytes left than asked for, isNext reports [io.EOF]. *)
Lemma isNext_short r expected :
  (length (input r) < length expected)%nat ->
  isNext r expected = (false, Some io_EOF).
Proof.
  intros H. unfold isNext, peekBytes, Peek.
  destruct (Nat.leb_spec (length expected) (length (input r)));
    [lia | reflexivity].
Qed.

Lemma peekRune_ascii r b tl :
  input r = b :: tl -> 0 <= b < 128 -> peekRune r = (b, None).
Proof.
  intros E Hb. unfold peekRune, ReadRune, DecodeRune. rewrite E.
  replace ((0 <=? b) && (b <? 128)) with true; [reflexivity|].
  symmetry. apply andb_true_iff. split; [apply Z.leb_le | apply Z.ltb_lt]; lia.
Qed.

Lemma peekRune_nil r : input r = [] -> peekRune r = (0, Some io_EOF).
Proof. intros E. unfold peekRune, ReadRune. rewrite E. reflexivity. Qed.

(** A line feed: one byte consumed, the line counted, the column reset. *)
Lemma readRune_line_feed r tl :
  input r = 10 :: tl -> isNewLine C 10 = true ->
  readRune C r = (mkReader tl (line r + 1) 0 (depth r), 10, None).
Proof.
  intros E Hn. unfold readRune, ReadRune, DecodeRune. rewrite E.
  cbn. rewrite Hn. reflexivity.
Qed.

(** A carriage return before a line feed: the carriage return alone is
    consumed and the line is not counted yet. *)
Lemma readRune_cr_before_lf r tl :
  input r = 13 :: 10 :: tl -> isNewLine C 13 = true ->
  readRune C r = (mkReader (10 :: tl) (line r) (pos r) (depth r), 13, None).
Proof.
  intros E Hn. unfold readRune, ReadRune, DecodeRune. rewrite E.
  cbn. rewrite Hn. reflexivity.
Qed.

(** The pair CR LF read by two calls counts as one line break. *)
Lemma readRune_cr_lf r tl :
  input r = 13 :: 10 :: tl ->
  isNewLine C 13 = true -> isNewLine C 10 = true ->
  let '(r1, ch1, _) := readRune C r in
  let '(r2, ch2, _) := readRune C r1 in
  ch1 = 13 /\ ch2 = 10 /\ input r2 = tl
  /\ line r2 = line r + 1 /\ pos r2 = 0.
Proof.
  intros E H13 H10.
  rewrite (readRune_cr_before_lf r tl E H13).
  rewrite (readRune_line_feed
             (mkReader (10 :: tl) (line r) (pos r) (depth r)) tl eq_refl H10).
  cbn. auto.
Qed.

(** A carriage return before an ASCII byte other than a line feed: that
    byte is consumed together with the carriage return. *)
Lemma readRune_cr_before_other r b tl :
  input r = 13 :: b :: tl -> 0 <= b < 128 -> b <> 10 ->
  isNewLine C 13 = true ->
  readRune C r = (mkReader tl (line r + 1) 0 (depth r), 13, None).
Proof.
  intros E Hb Hne Hn. unfold readRune, ReadRune, DecodeRune. rewrite E.
  cbn. rewrite Hn.
  replace ((0 <=? b) && (b <? 128)) with true
    by (symmetry; apply andb_true_iff; split;
        [apply Z.leb_le | apply Z.ltb_lt]; lia).
  replace (b =? 10) with false by (symmetry; apply Z.eqb_neq; exact Hne).
  reflexivity.
Qed.

End ReaderFacts.


(** ** Decoded runes *)

(** A Unicode scalar value has an encoding of one to four bytes. *)
Lemma RuneLen_scalar r :
  0 <= r <= 1114111 -> ~ (55296 <= r <= 57343) -> 1 <= RuneLen r <= 4.
Proof.
  intros Hr Hs. unfold RuneLen.
  destruct (Z.ltb_spec r 0); [lia|].
  destruct (Z.ltb_spec r 128); [lia|].
  destruct (Z.ltb_spec r 2048); [lia|].
  destruct (Z.leb_spec 55296 r); destruct (Z.leb_spec r 57343);
    cbn [andb]; try lia.
  all: destruct (Z.ltb_spec r 65536); [lia|].
  all: destruct (Z.leb_spec r 1114111); lia.
Qed.

(** The decoder yields scalar values only. *)
Lemma DecodeRune_scalar bs :
  0 <= fst (DecodeRune bs) <= 1114111
  /\ ~ (55296 <= fst (DecodeRune bs) <= 57343).
Proof.
  assert (HE : 0 <= RuneError <= 1114111 /\ ~ (55296 <= RuneError <= 57343))
    by (unfold RuneError; lia).
  unfold DecodeRune, is_cont.
  destruct bs as [|b0 tl]; [exact HE|].
  destruct ((0 <=? b0) && (b0 <? 128)) eqn:E1; [cbn [fst]; bool_hyps; lia|].
  destruct ((194 <=? b0) && (b0 <=? 223)) eqn:E2.
  { destruct tl as [|b1 tl]; [exact HE|].
    destruct ((128 <=? b1) && (b1 <=? 191)) eqn:E3; [|exact HE].
    cbn [fst]. bool_hyps. lia. }
  destruct ((224 <=? b0) && (b0 <=? 239)) eqn:E3.
  { destruct tl as [|b1 [|b2 tl]]; try exact HE.
    destruct (_ && _ && _) eqn:E4; [|exact HE].
    cbn [fst]. clear E1 E2.
    destruct (b0 =? 224) eqn:Ea; destruct (b0 =? 237) eqn:Eb; bool_hyps; lia. }
  destruct ((240 <=? b0) && (b0 <=? 244)) eqn:E4; [|exact HE].
  destruct tl as [|b1 [|b2 [|b3 tl]]]; try exact HE.
  destruct (_ && _ && _) eqn:E5; [|exact HE].
  cbn [fst]. clear E1 E2 E3.
  destruct (b0 =? 240) eqn:Ea; destruct (b0 =? 244) eqn:Eb; bool_hyps; lia.
Qed.

Lemma RuneLen_DecodeRune bs : 1 <= RuneLen (fst (DecodeRune bs)) <= 4.
Proof. apply RuneLen_scalar; apply DecodeRune_scalar. Qed.

(** ** The skipping loops end within their fuel

    The loops of skipUntilNewLine, of readUntilSignificant and the first
    loop of readNodes run on fuel taken from the length of the input.
    Every turn that goes on has consumed input, so that fuel is never used
    up: the value the definitions give for no fuel left is never returned,
    and any larger amount of fuel gives the same result. *)

Section Fuel.
Variable C : RuneClasses.

Lemma peekRune_Some r ch : peekRune r = (ch, None) -> input r <> [].
Proof.
  unfold peekRune, ReadRune. destruct (input r); [discriminate|done].
Qed.

Lemma peekRune_decoded r ch :
  peekRune r = (ch, None) -> ch = fst (DecodeRune (input r)).
Proof.
  unfold peekRune, ReadRune. destruct (input r) as [|b tl]; [discriminate|].
  destruct (DecodeRune (b :: tl)). intros [= ->]. reflexivity.
Qed.

Lemma length_discardByte r :
  input r <> [] ->
  (length (input (discardByte r)) < length (input r))%nat.
Proof.
  rewrite input_discardByte. destruct (input r); [done|]. cbn. lia.
Qed.

Lemma length_discardBytes r n :
  length (input (discardBytes r n)) = (length (input r) - n)%nat.
Proof. rewrite input_discardBytes. apply length_drop. Qed.

Lemma isNext_length r e b :
  isNext r e = (b, None) -> (length e <= length (input r))%nat.
Proof.
  unfold isNext, peekBytes, Peek.
  destruct (Nat.leb_spec (length e) (length (input r))); [lia|discriminate].
Qed.

(** *** skipUntilNewLine *)

Lemma skipUntilNewLine_loop_length fuel : forall r ab r' e,
  skipUntilNewLine_loop C fuel r ab = (r', e) ->
  (length (input r') <= length (input r))%nat.
Proof.
  induction fuel as [|fuel IH]; intros r ab r' e; cbn [skipUntilNewLine_loop].
  - intros [= <- _]. lia.
  - assert (Hrest :
      match peekRune r with
      | (_, Some e0) => if is_EOF (Some e0) then (r, None) else (r, Some e0)
      | (ch, None) =>
        if isNewLine C ch
        then if ab then (discardByte r, None) else (r, None)
        else skipUntilNewLine_loop C fuel (discardByte r) ab
      end = (r', e) -> (length (input r') <= length (input r))%nat).
    { destruct (peekRune r) as [ch [e0|]] eqn:Hp.
      - destruct (is_EOF (Some e0)); intros [= <- _]; lia.
      - pose proof (length_discardByte r (peekRune_Some r ch Hp)).
        destruct (isNewLine C ch).
        + destruct ab; intros [= <- _]; lia.
        + intros H1%IH. lia. }
    destruct (isNext r charsCRLF) as [[] [e0|]] eqn:Hn; try exact Hrest.
    pose proof (length_discardBytes r 2).
    pose proof (isNext_length r _ _ Hn) as Hl. cbn in Hl.
    pose proof (length_discardByte r).
    destruct ab; intros [= <- _]; [lia|].
    assert (input r <> []) by (destruct (input r); [cbn in Hl; lia | done]).
    intuition lia.
Qed.

Lemma skipUntilNewLine_loop_enough f1 : forall f2 r ab,
  (length (input r) < f1)%nat -> (length (input r) < f2)%nat ->
  skipUntilNewLine_loop C f1 r ab = skipUntilNewLine_loop C f2 r ab.
Proof.
  induction f1 as [|f1 IH]; intros f2 r ab H1 H2; [lia|].
  destruct f2 as [|f2]; [lia|]. cbn [skipUntilNewLine_loop].
  destruct (peekRune r) as [ch [e0|]] eqn:Hp.
  - reflexivity.
  - pose proof (length_discardByte r (peekRune_Some r ch Hp)).
    rewrite (IH f2 (discardByte r) ab) by lia. reflexivity.
Qed.

Lemma skipUntilNewLine_enough fuel r ab :
  (length (input r) < fuel)%nat ->
  skipUntilNewLine_loop C fuel r ab = skipUntilNewLine C r ab.
Proof.
  intros H. unfold skipUntilNewLine. apply skipUntilNewLine_loop_enough; lia.
Qed.

Lemma skipUntilNewLine_length r ab r' e :
  skipUntilNewLine C r ab = (r', e) ->
  (length (input r') <= length (input r))%nat.
Proof. apply skipUntilNewLine_loop_length. Qed.

(** After a line break was peeked, skipUntilNewLine consumes input. *)
Lemma skipUntilNewLine_progress r ch r' e :
  peekRune r = (ch, None) -> isNewLine C ch = true ->
  skipUntilNewLine C r true = (r', e) ->
  (length (input r') < length (input r))%nat.
Proof.
  intros Hp Hn. unfold skipUntilNewLine. cbn [skipUntilNewLine_loop].
  rewrite Hp, Hn.
  pose proof (length_discardByte r (peekRune_Some r ch Hp)).
  destruct (isNext r charsCRLF) as [[] [e0|]] eqn:Hx;
    intros [= <- _]; try lia.
  rewrite length_discardBytes.
  pose proof (peekRune_Some r ch Hp). destruct (input r); [done|cbn; lia].
Qed.

(** *** The loop over a block comment *)

Lemma skipBlockComment_length fuel : forall r d r' e,
  skipBlockComment fuel r d = (r', e) ->
  (length (input r') <= length (input r))%nat.
Proof.
  induction fuel as [|fuel IH]; intros r d r' e; cbn [skipBlockComment].
  - intros [= <- _]. lia.
  - destruct (isNext r charsStartCommentBlock) as [[] [e0|]] eqn:H1;
      try (intros [= <- _]; lia).
    + intros H%IH. rewrite length_discardBytes in H. lia.
    + destruct (isNext r charsEndCommentBlock) as [[] [e0|]] eqn:H2;
        try (intros [= <- _]; lia).
      * destruct (d - 1 <=? 0).
        -- intros [= <- _]. rewrite length_discardBytes. lia.
        -- intros H%IH. rewrite length_discardBytes in H. lia.
      * intros H%IH. rewrite input_discardByte in H.
        destruct (input r); cbn in *; lia.
Qed.

Lemma skipBlockComment_enough f1 : forall f2 r d,
  (length (input r) < f1)%nat -> (length (input r) < f2)%nat ->
  skipBlockComment f1 r d = skipBlockComment f2 r d.
Proof.
  induction f1 as [|f1 IH]; intros f2 r d H1 H2; [lia|].
  destruct f2 as [|f2]; [lia|]. cbn [skipBlockComment].
  destruct (isNext r charsStartCommentBlock) as [[] [e0|]] eqn:Ha;
    try reflexivity.
  - pose proof (isNext_length r _ _ Ha) as Hl. cbn in Hl.
    apply IH; rewrite length_discardBytes; lia.
  - destruct (isNext r charsEndCommentBlock) as [[] [e0|]] eqn:Hb;
      try reflexivity.
    + pose proof (isNext_length r _ _ Hb) as Hl. cbn in Hl.
      destruct (d - 1 <=? 0); [reflexivity|].
      apply IH; rewrite length_discardBytes; lia.
    + pose proof (isNext_length r _ _ Hb) as Hl. cbn in Hl.
      assert (input r <> []) by (destruct (input r); [cbn in Hl; lia | done]).
      pose proof (length_discardByte r).
      apply IH; intuition lia.
Qed.

(** *** readUntilSignificant *)

(** The rune peeked has an encoding: the count that readUntilSignificant
    hands to discardBytes for a blank is 1 to 4. *)
Lemma peekRune_RuneLen r ch : peekRune r = (ch, None) -> 1 <= RuneLen ch <= 4.
Proof.
  intros Hp. rewrite (peekRune_decoded r ch Hp). apply RuneLen_DecodeRune.
Qed.

Lemma whitespace_progress r ch :
  peekRune r = (ch, None) ->
  (length (input (discardBytes r (Z.to_nat (RuneLen ch)))) < length (input r))%nat.
Proof.
  intros Hp. rewrite length_discardBytes.
  pose proof (peekRune_Some r ch Hp).
  rewrite (peekRune_decoded r ch Hp).
  pose proof (RuneLen_DecodeRune (input r)).
  destruct (input r); [done|]. cbn [length]. lia.
Qed.

Lemma readUntilSignificant_loop_length fuel : forall r inside esc r' e,
  readUntilSignificant_loop C fuel r inside esc = (r', e) ->
  (length (input r') <= length (input r))%nat.
Proof.
  induction fuel as [|fuel IH]; intros r inside esc r' e;
    cbn [readUntilSignificant_loop].
  - intros [= <- _]. lia.
  - destruct (peekRune r) as [ch [e0|]] eqn:Hp; [intros [= <- _]; lia|].
    destruct (isWhitespace C ch).
    { intros H%IH. pose proof (whitespace_progress r ch Hp). lia. }
    destruct ((ch =? c "\") && inside).
    { intros H%IH. pose proof (length_discardByte r (peekRune_Some r ch Hp)).
      lia. }
    assert (Hrest :
      match isNext r charsStartCommentBlock with
      | (true, None) =>
        let r1 := discardBytes r 2 in
        match skipBlockComment (S (length (input r1))) r1 1 with
        | (r2, Some err) => (r2, err)
        | (r2, None) => readUntilSignificant_loop C fuel r2 inside esc
        end
      | _ =>
        if esc then
          if isNewLine C ch then
            match skipUntilNewLine C r true with
            | (r1, Some e) => (r1, Some e)
            | (r1, None) => readUntilSignificant_loop C fuel r1 inside false
            end
          else (r, Some errSignificantInCont)
        else (r, None)
      end = (r', e) -> (length (input r') <= length (input r))%nat).
    { assert (Hesc :
        (if esc then
          if isNewLine C ch then
            match skipUntilNewLine C r true with
            | (r1, Some e) => (r1, Some e)
            | (r1, None) => readUntilSignificant_loop C fuel r1 inside false
            end
          else (r, Some errSignificantInCont)
        else (r, None)) = (r', e) ->
        (length (input r') <= length (input r))%nat).
      { destruct esc; [|intros [= <- _]; lia].
        destruct (isNewLine C ch); [|intros [= <- _]; lia].
        destruct (skipUntilNewLine C r true) as [r1 [e1|]] eqn:Hs;
          pose proof (skipUntilNewLine_length _ _ _ _ Hs) as Hl.
        - intros [= <- _]. lia.
        - intros Hq%IH. lia. }
      destruct (isNext r charsStartCommentBlock) as [[] [e0|]] eqn:Hb;
        try exact Hesc.
      cbv zeta.
      destruct (skipBlockComment _ _ 1) as [r2 [err|]] eqn:Hk;
        pose proof (skipBlockComment_length _ _ _ _ _ Hk) as Hl;
        rewrite length_discardBytes in Hl.
      - intros [= <- _]. lia.
      - intros Hq%IH. lia. }
    destruct (isNext r charsStartComment) as [[] [e0|]] eqn:Ha; try exact Hrest.
    intros Hq%skipUntilNewLine_length. rewrite length_discardBytes in Hq. lia.
Qed.

Lemma readUntilSignificant_loop_enough f1 : forall f2 r inside esc,
  (length (input r) < f1)%nat -> (length (input r) < f2)%nat ->
  readUntilSignificant_loop C f1 r inside esc
  = readUntilSignificant_loop C f2 r inside esc.
Proof.
  induction f1 as [|f1 IH]; intros f2 r inside esc H1 H2; [lia|].
  destruct f2 as [|f2]; [lia|]. cbn [readUntilSignificant_loop].
  destruct (peekRune r) as [ch [e0|]] eqn:Hp; [reflexivity|].
  destruct (isWhitespace C ch).
  { pose proof (whitespace_progress r ch Hp). apply IH; lia. }
  destruct ((ch =? c "\") && inside).
  { pose proof (length_discardByte r (peekRune_Some r ch Hp)). apply IH; lia. }
  assert (Hesc :
    (if esc then
      if isNewLine C ch then
        match skipUntilNewLine C r true with
        | (r1, Some e) => (r1, Some e)
        | (r1, None) => readUntilSignificant_loop C f1 r1 inside false
        end
      else (r, Some errSignificantInCont)
    else (r, None))
    = (if esc then
      if isNewLine C ch then
        match skipUntilNewLine C r true with
        | (r1, Some e) => (r1, Some e)
        | (r1, None) => readUntilSignificant_loop C f2 r1 inside false
        end
      else (r, Some errSignificantInCont)
    else (r, None))).
  { destruct esc; [|reflexivity].
    destruct (isNewLine C ch) eqn:Hn; [|reflexivity].
    destruct (skipUntilNewLine C r true) as [r1 [e1|]] eqn:Hs; [reflexivity|].
    pose proof (skipUntilNewLine_progress _ _ _ _ Hp Hn Hs).
    apply IH; lia. }
  destruct (isNext r charsStartComment) as [[] [e0|]] eqn:Ha; try reflexivity.
  all: destruct (isNext r charsStartCommentBlock) as [[] [e1|]] eqn:Hb;
    try exact Hesc.
  all: cbv zeta;
    destruct (skipBlockComment _ _ 1) as [r2 [err|]] eqn:Hk; [reflexivity|];
    pose proof (skipBlockComment_length _ _ _ _ _ Hk) as Hl;
    rewrite length_discardBytes in Hl;
    pose proof (isNext_length r _ _ Hb) as Hl2; cbn in Hl2;
    apply IH; lia.
Qed.

Lemma readUntilSignificant_enough fuel r inside :
  (length (input r) < fuel)%nat ->
  readUntilSignificant_loop C fuel r inside false
  = readUntilSignificant C r inside.
Proof.
  intros H. unfold readUntilSignificant.
  apply readUntilSignificant_loop_enough; lia.
Qed.

Lemma readUntilSignificant_length r inside r' e :
  readUntilSignificant C r inside = (r', e) ->
  (length (input r') <= length (input r))%nat.
Proof. apply readUntilSignificant_loop_length. Qed.

(** *** The first loop of readNodes *)

Lemma readNodes_inner_loop_enough f1 : forall f2 r,
  (length (input r) < f1)%nat -> (length (input r) < f2)%nat ->
  readNodes_inner_loop C f1 r = readNodes_inner_loop C f2 r.
Proof.
  induction f1 as [|f1 IH]; intros f2 r H1 H2; [lia|].
  destruct f2 as [|f2]; [lia|]. cbn [readNodes_inner_loop].
  destruct (readUntilSignificant C r false) as [r1 [e|]] eqn:Hu; [reflexivity|].
  pose proof (readUntilSignificant_length _ _ _ _ Hu).
  destruct (peekRune r1) as [ch [e|]] eqn:Hp; [reflexivity|].
  destruct (isNewLine C ch) eqn:Hn; cbn [negb]; [|reflexivity].
  destruct (skipUntilNewLine C r1 true) as [r2 [e|]] eqn:Hs; [reflexivity|].
  pose proof (skipUntilNewLine_progress _ _ _ _ Hp Hn Hs).
  apply IH; lia.
Qed.

Lemma readNodes_inner_enough fuel r :
  (length (input r) < fuel)%nat ->
  readNodes_inner_loop C fuel r = readNodes_inner C r.
Proof.
  intros H. unfold readNodes_inner. apply readNodes_inner_loop_enough; lia.
Qed.

End Fuel.

(** ** Skipping to the end of a line *)

Section SkipFacts.

Variable C : RuneClasses.

Lemma atLineBreak_false r :
  atLineBreak C (input r) = false ->
  isNext r charsCRLF <> (true, None)
  /\ forall ch, peekRune r = (ch, None) -> isNewLine C ch = false.
Proof.
  unfold atLineBreak.
  rewrite <- (isNext_input r (wrapReader (input r))) by reflexivity.
  rewrite <- (peekRune_input r (wrapReader (input r))) by reflexivity.
  destruct (isNext r charsCRLF) as [[] [e|]]; try discriminate.
  all: intros H; split; [discriminate|].
  all: intros ch Hp; rewrite Hp in H; exact H.
Qed.

(** skipUntilNewLine with afterBreak set, started on text that holds no
    line break and is followed by one, stops right after that line
    break. *)
Lemma skipUntilNewLine_loop_text text : forall fuel r nl rest,
  input r = text ++ nl ++ rest ->
  noLineBreak C text (nl ++ rest) = true ->
  plainLineBreak C nl rest = true ->
  (length text < fuel)%nat ->
  exists r', skipUntilNewLine_loop C fuel r true = (r', None)
             /\ input r' = rest /\ depth r' = depth r.
Proof.
  induction text as [|b text IH]; intros fuel r nl rest Hin Hno Hnl Hf.
  - destruct fuel as [|fuel]; [simpl in Hf; lia|]. cbn [app] in Hin.
    cbn [skipUntilNewLine_loop].
    destruct nl as [|a [|b [|? ?]]]; try discriminate.
    + (* a single byte *)
      cbn [plainLineBreak] in Hnl.
      apply andb_true_iff in Hnl as [Hnl Hcr].
      apply andb_true_iff in Hnl as [Hnl Hnew].
      apply andb_true_iff in Hnl as [H0 H128].
      apply Z.leb_le in H0. apply Z.ltb_lt in H128.
      assert (Hcrlf : isNext r charsCRLF <> (true, None)).
      { intros [tl Htl]%isNext_true. rewrite Hin in Htl.
        cbn in Htl. injection Htl as -> Hrest.
        rewrite Hrest in Hcr. cbn in Hcr.
        rewrite bool_decide_eq_true_2 in Hcr by reflexivity. discriminate. }
      rewrite (peekRune_ascii r a rest) by (assumption || lia).
      rewrite Hnew.
      exists (discardByte r).
      rewrite input_discardByte, depth_discardByte, Hin.
      destruct (isNext r charsCRLF) as [[] [e|]]; try congruence; auto.
    + (* CR LF *)
      cbn [plainLineBreak] in Hnl.
      apply andb_true_iff in Hnl as [Ha Hb].
      apply Z.eqb_eq in Ha, Hb. subst a b.
      assert (Hcrlf : isNext r charsCRLF = (true, None)).
      { apply isNext_true. exists rest. exact Hin. }
      rewrite Hcrlf. exists (discardBytes r 2).
      rewrite input_discardBytes, depth_discardBytes, Hin. auto.
  - destruct fuel as [|fuel]; [simpl in Hf; lia|].
    cbn [noLineBreak] in Hno. apply andb_true_iff in Hno as [Hb Hno].
    apply negb_true_iff in Hb. rewrite <- Hin in Hb.
    apply atLineBreak_false in Hb as [Hcrlf Hpeek].
    cbn [skipUntilNewLine_loop].
    assert (Hp : exists ch, peekRune r = (ch, None)).
    { unfold peekRune, ReadRune. rewrite Hin. cbn [app].
      destruct (DecodeRune _) as [ch sz]. eauto. }
    destruct Hp as [ch Hp]. rewrite Hp, (Hpeek ch Hp).
    destruct (IH fuel (discardByte r) nl rest) as (r' & Hr' & Hi' & Hd').
    { rewrite input_discardByte, Hin. reflexivity. }
    { exact Hno. } { exact Hnl. } { simpl in Hf. lia. }
    exists r'. rewrite Hd', depth_discardByte.
    destruct (isNext r charsCRLF) as [[] [e|]]; try congruence; auto.
Qed.

(** The same for readUntilSignificant at the start of a [//] comment. *)
Lemma readUntilSignificant_line_comment r insideNode text nl rest :
  input r = charsStartComment ++ text ++ nl ++ rest ->
  isWhitespace C (c "/") = false ->
  noLineBreak C text (nl ++ rest) = true ->
  plainLineBreak C nl rest = true ->
  exists r', readUntilSignificant C r insideNode = (r', None)
             /\ input r' = rest /\ depth r' = depth r.
Proof.
  intros Hin Hws Hno Hnl.
  unfold readUntilSignificant. cbn [readUntilSignificant_loop].
  change (c "/") with 47 in Hws.
  rewrite (peekRune_ascii r 47 (47 :: text ++ nl ++ rest))
    by (exact Hin || lia).
  rewrite Hws. change (47 =? c "\") with false. cbn [andb].
  assert (Hc : isNext r charsStartComment = (true, None)).
  { apply isNext_true. eauto. }
  rewrite Hc.
  destruct (skipUntilNewLine_loop_text text
              (S (length (input (discardBytes r 2))))
              (discardBytes r 2) nl rest) as (r' & Hr' & Hi' & Hd').
  - rewrite input_discardBytes, Hin. reflexivity.
  - exact Hno.
  - exact Hnl.
  - rewrite input_discardBytes, Hin. cbn [charsStartComment app drop].
    rewrite drop_0, length_app. lia.
  - exists r'. unfold skipUntilNewLine. rewrite Hr', Hd', depth_discardBytes.
    auto.
Qed.

End SkipFacts.


(** ** Block comments *)

Section Comments.
Variable C : RuneClasses.

Lemma isNext_two r b b2 tl e0 e1 :
  input r = b :: b2 :: tl ->
  isNext r [e0; e1] = ((b =? e0) && (b2 =? e1), None).
Proof.
  intros Hin. unfold isNext, peekBytes, Peek, bytes_eqb. rewrite Hin. cbn.
  f_equal. destruct (Z.eqb_spec b e0) as [->|Hb]; cbn.
  - destruct (Z.eqb_spec b2 e1) as [->|Hb2].
    + by rewrite bool_decide_eq_true_2.
    + rewrite bool_decide_eq_false_2; [reflexivity|]. congruence.
  - rewrite bool_decide_eq_false_2; [reflexivity|]. congruence.
Qed.

Lemma isNext_other_head r b b2 tl e0 e1 :
  input r = b :: b2 :: tl -> b <> e0 -> isNext r [e0; e1] = (false, None).
Proof.
  intros Hin Hne. rewrite (isNext_two r b b2 tl e0 e1 Hin).
  apply Z.eqb_neq in Hne. rewrite Hne. reflexivity.
Qed.

(** The loop over a block comment, on the body of a closed comment
    followed by its [*/]: it ends right after that [*/]. *)
Lemma skipBlockComment_closed s :
  commentBody s ->
  forall fuel r d rest,
    input r = s ++ charsEndCommentBlock ++ rest ->
    (length (input r) < fuel)%nat ->
    1 <= d ->
    exists r', input r' = rest /\ depth r' = depth r
               /\ skipBlockComment fuel r d = afterCommentEnd r' d.
Proof.
  induction 1 as [|b s Hb1 Hb2 Hs IH|s1 s2 H1 IH1 H2 IH2];
    intros fuel r d rest Hin Hf Hd;
    unfold charsStartCommentBlock, charsEndCommentBlock in *.
  - destruct fuel as [|fuel]; [lia|]. cbn [app] in Hin.
    cbn [skipBlockComment]. unfold charsStartCommentBlock, charsEndCommentBlock.
    rewrite (isNext_other_head r 42 47 rest 47 42 Hin) by lia.
    assert (Hb : isNext r [42; 47] = (true, None)).
    { apply isNext_true. exists rest. exact Hin. }
    rewrite Hb. exists (discardBytes r 2).
    rewrite input_discardBytes, depth_discardBytes, Hin.
    repeat split. unfold afterCommentEnd.
    destruct (d - 1 <=? 0); [reflexivity|].
    apply skipBlockComment_enough;
      rewrite ?length_discardBytes, ?input_discardBytes; rewrite Hin in *;
      cbn in *; lia.
  - destruct fuel as [|fuel]; [lia|].
    assert (Hin2 : exists b2 tl, input r = b :: b2 :: tl).
    { rewrite Hin. destruct s; cbn; eauto. }
    destruct Hin2 as (b2 & tl & Hin2).
    cbn [skipBlockComment]. unfold charsStartCommentBlock, charsEndCommentBlock.
    rewrite (isNext_other_head r b b2 tl 47 42 Hin2 Hb1).
    rewrite (isNext_other_head r b b2 tl 42 47 Hin2 Hb2).
    destruct (IH fuel (discardByte r) d rest) as (r' & Hi & Hd' & He).
    + rewrite input_discardByte, Hin. reflexivity.
    + rewrite input_discardByte, Hin in *. cbn in *. lia.
    + exact Hd.
    + exists r'. rewrite Hd', depth_discardByte. auto.
  - destruct fuel as [|fuel]; [lia|].
    cbn [skipBlockComment]. unfold charsStartCommentBlock, charsEndCommentBlock.
    assert (Ha : isNext r [47; 42] = (true, None)).
    { apply isNext_true. eexists. rewrite Hin. rewrite <- app_assoc. reflexivity. }
    rewrite Ha.
    destruct (IH1 fuel (discardBytes r 2) (d + 1)
                (s2 ++ [42; 47] ++ rest))
      as (r1 & Hi1 & Hd1 & He1).
    + rewrite input_discardBytes, Hin. cbn. rewrite <- !app_assoc. reflexivity.
    + rewrite length_discardBytes.
      pose proof (isNext_length r _ _ Ha) as Hl. cbn in Hl. lia.
    + lia.
    + rewrite He1. unfold afterCommentEnd at 1.
      destruct (Z.leb_spec (d + 1 - 1) 0) as [Hd0|Hd0]; [lia|].
      replace (d + 1 - 1) with d by lia.
      destruct (IH2 (S (length (input r1))) r1 d rest Hi1 ltac:(lia) Hd)
        as (r2 & Hi2 & Hd2 & He2).
      exists r2. rewrite He2, Hd2, Hd1, depth_discardBytes. auto.
Qed.

(** A closed block comment, nested ones included, is skipped by
    readUntilSignificant as one unit: the result is that of
    readUntilSignificant started right after the comment. *)
Lemma readUntilSignificant_block_comment r inside s rest :
  input r = charsStartCommentBlock ++ s ++ charsEndCommentBlock ++ rest ->
  commentBody s ->
  isWhitespace C (c "/") = false ->
  exists r', input r' = rest /\ depth r' = depth r
             /\ readUntilSignificant C r inside
                = readUntilSignificant C r' inside.
Proof.
  intros Hin Hs Hws. change (c "/") with 47 in Hws.
  destruct (skipBlockComment_closed s Hs
              (S (length (input (discardBytes r 2)))) (discardBytes r 2) 1 rest)
    as (r' & Hi & Hd & He).
  { rewrite input_discardBytes, Hin. reflexivity. }
  { lia. } { lia. }
  exists r'. rewrite Hd, depth_discardBytes. repeat split; [exact Hi|].
  unfold readUntilSignificant at 1. cbn [readUntilSignificant_loop].
  unfold charsStartComment, charsStartCommentBlock, charsEndCommentBlock in *.
  rewrite (peekRune_ascii r 47 (42 :: s ++ [42; 47] ++ rest))
    by (exact Hin || lia).
  rewrite Hws. change (47 =? c "\") with false. cbn [andb].
  rewrite (isNext_two r 47 42 (s ++ [42; 47] ++ rest) 47 47 Hin).
  rewrite (isNext_two r 47 42 (s ++ [42; 47] ++ rest) 47 42 Hin).
  cbn [Z.eqb Pos.eqb andb]. cbv zeta. rewrite He.
  unfold afterCommentEnd. cbn [Z.sub Z.leb Z.compare Z.add Z.opp Z.pos_sub].
  apply readUntilSignificant_enough.
  rewrite Hi, Hin. cbn. rewrite !length_app. cbn. lia.
Qed.

(** The loop over a block comment on text that holds neither [/] nor [*]
    and then ends: [io.EOF]. *)
Lemma skipBlockComment_unterminated s : forall fuel r d,
  input r = s ->
  Forall (fun b => b <> c "/" /\ b <> c "*") s ->
  (length s < fuel)%nat ->
  exists r', skipBlockComment fuel r d = (r', Some (Some io_EOF))
             /\ depth r' = depth r.
Proof.
  induction s as [|b s IH]; intros fuel r d Hin Hall Hf.
  - destruct fuel as [|fuel]; [cbn in Hf; lia|]. cbn [skipBlockComment].
    rewrite isNext_short by (rewrite Hin; cbn; lia). eauto.
  - destruct fuel as [|fuel]; [cbn in Hf; lia|]. cbn [skipBlockComment].
    inversion Hall as [|? ? [Hb1 Hb2] Hall']; subst.
    destruct s as [|b2 s].
    + rewrite isNext_short by (rewrite Hin; cbn; lia). eauto.
    + unfold charsStartCommentBlock, charsEndCommentBlock.
      rewrite (isNext_other_head r b b2 s 47 42 Hin Hb1).
      rewrite (isNext_other_head r b b2 s 42 47 Hin Hb2).
      destruct (IH fuel (discardByte r) d) as (r' & Hr' & Hd').
      * rewrite input_discardByte, Hin. reflexivity.
      * exact Hall'.
      * cbn in *. lia.
      * exists r'. rewrite Hr', Hd', depth_discardByte. auto.
Qed.

(** A block comment that is never closed: readUntilSignificant returns
    [io.EOF], as it does at the end of the input. *)
Lemma readUntilSignificant_open_comment r inside s :
  input r = charsStartCommentBlock ++ s ->
  Forall (fun b => b <> c "/" /\ b <> c "*") s ->
  isWhitespace C (c "/") = false ->
  exists r', readUntilSignificant C r inside = (r', Some io_EOF)
             /\ depth r' = depth r.
Proof.
  intros Hin Hall Hws. change (c "/") with 47 in Hws.
  destruct (skipBlockComment_unterminated s
              (S (length (input (discardBytes r 2)))) (discardBytes r 2) 1)
    as (r' & Hr' & Hd').
  { rewrite input_discardBytes, Hin. reflexivity. }
  { exact Hall. }
  { rewrite input_discardBytes, Hin. cbn. rewrite ?drop_0. lia. }
  exists r'. rewrite Hd', depth_discardBytes. split; [|reflexivity].
  unfold readUntilSignificant. cbn [readUntilSignificant_loop].
  unfold charsStartComment, charsStartCommentBlock in *.
  rewrite (peekRune_ascii r 47 (42 :: s)) by (exact Hin || lia).
  rewrite Hws. change (47 =? c "\") with false. cbn [andb].
  rewrite (isNext_two r 47 42 s 47 47 Hin).
  rewrite (isNext_two r 47 42 s 47 42 Hin).
  cbn [Z.eqb Pos.eqb andb]. cbv zeta. rewrite Hr'. reflexivity.
Qed.

End Comments.

(** ** Line continuations *)

Section Escline.
Variable C : RuneClasses.

Lemma RuneLen_ascii b : 0 <= b < 128 -> Z.to_nat (RuneLen b) = 1%nat.
Proof.
  intros Hb. unfold RuneLen.
  destruct (Z.ltb_spec b 0); [lia|]. destruct (Z.ltb_spec b 128); [|lia].
  reflexivity.
Qed.

Lemma discardBytes_one r : input (discardBytes r 1) = tail (input r).
Proof. rewrite input_discardBytes. by destruct (input r). Qed.

(** Blanks are skipped whether a line continuation is pending or not. *)
Lemma readUntilSignificant_loop_blanks ws : forall fuel r inside esc tail,
  asciiBlanks C ws ->
  input r = ws ++ tail ->
  (length (input r) < fuel)%nat ->
  exists r', input r' = tail /\ depth r' = depth r
    /\ readUntilSignificant_loop C fuel r inside esc
       = readUntilSignificant_loop C (S (length tail)) r' inside esc.
Proof.
  induction ws as [|b ws IH]; intros fuel r inside esc tail Hws Hin Hf.
  - exists r. repeat split; [exact Hin|].
    apply readUntilSignificant_loop_enough; [lia|]. rewrite Hin. cbn. lia.
  - destruct fuel as [|fuel]; [lia|].
    inversion Hws as [|? ? [Hb Hw] Hws']; subst.
    cbn [readUntilSignificant_loop].
    rewrite (peekRune_ascii r b (ws ++ tail)) by (exact Hin || lia).
    rewrite Hw, (RuneLen_ascii b Hb).
    destruct (IH fuel (discardBytes r 1) inside esc tail Hws')
      as (r' & Hi & Hd & He).
    + rewrite discardBytes_one, Hin. reflexivity.
    + rewrite length_discardBytes. rewrite Hin in *. cbn in *. lia.
    + exists r'. rewrite Hd, depth_discardBytes. auto.
Qed.

Lemma isNext_head_differs r b tl e0 e :
  input r = b :: tl -> b <> e0 -> isNext r (e0 :: e) <> (true, None).
Proof.
  intros Hin Hne [tl' H]%isNext_true. rewrite Hin in H. cbn in H. congruence.
Qed.

(** A backslash, blanks and a line break (CR LF or one byte) in a node
    body are swallowed: readUntilSignificant answers as it does when
    started on the next line. *)
Lemma readUntilSignificant_escline r ws a nl rest :
  input r = c "\" :: ws ++ (a :: nl) ++ rest ->
  asciiBlanks C ws ->
  isWhitespace C (c "\") = false ->
  0 <= a < 128 -> isWhitespace C a = false -> isNewLine C a = true ->
  a <> c "\" -> a <> c "/" ->
  plainLineBreak C (a :: nl) rest = true ->
  exists r', input r' = rest /\ depth r' = depth r
    /\ readUntilSignificant C r true = readUntilSignificant C r' true.
Proof.
  change (c "\") with 92. change (c "/") with 47.
  intros Hin Hws Hbs Ha Haw Han Ha1 Ha2 Hnl.
  unfold readUntilSignificant at 1. cbn [readUntilSignificant_loop].
  rewrite (peekRune_ascii r 92 _ Hin) by lia.
  rewrite Hbs. change (92 =? c "\") with true. cbn [andb].
  destruct (readUntilSignificant_loop_blanks ws (length (input r))
              (discardByte r) true true ((a :: nl) ++ rest) Hws)
    as (r1 & Hi1 & Hd1 & He1).
  { rewrite input_discardByte, Hin. reflexivity. }
  { rewrite input_discardByte, Hin. cbn. lia. }
  rewrite He1. cbn [readUntilSignificant_loop].
  rewrite (peekRune_ascii r1 a _ Hi1) by lia.
  rewrite Haw. apply Z.eqb_neq in Ha1 as Ha1'. change (c "\") with 92.
  rewrite Ha1'. cbn [andb].
  pose proof (isNext_head_differs r1 a _ 47 [47] Hi1 Ha2) as Hc1.
  pose proof (isNext_head_differs r1 a _ 47 [42] Hi1 Ha2) as Hc2.
  destruct (skipUntilNewLine_loop_text C [] (S (length (input r1))) r1
              (a :: nl) rest Hi1 eq_refl Hnl ltac:(cbn; lia))
    as (r' & Hr' & Hi' & Hd').
  exists r'. rewrite Hd', Hd1, depth_discardByte. repeat split; [exact Hi'|].
  assert (Hfin :
    (if isNewLine C a then
       match skipUntilNewLine C r1 true with
       | (r2, Some e) => (r2, Some e)
       | (r2, None) =>
         readUntilSignificant_loop C (length ((a :: nl) ++ rest)) r2 true false
       end
     else (r1, Some errSignificantInCont))
    = readUntilSignificant C r' true).
  { rewrite Han. unfold skipUntilNewLine. rewrite Hr'.
    apply readUntilSignificant_enough. rewrite Hi'. cbn.
    rewrite length_app. lia. }
  unfold charsStartComment, charsStartCommentBlock in *.
  destruct (isNext r1 [47; 47]) as [[] [e|]]; try congruence;
    destruct (isNext r1 [47; 42]) as [[] [e'|]]; try congruence; exact Hfin.
Qed.

(** A backslash, blanks and then a token on the same line: the error for
    a significant token in an escline. *)
Lemma readUntilSignificant_backslash_token r ws b rest :
  input r = c "\" :: ws ++ b :: rest ->
  asciiBlanks C ws ->
  isWhitespace C (c "\") = false ->
  0 <= b < 128 -> isWhitespace C b = false -> isNewLine C b = false ->
  b <> c "\" -> b <> c "/" ->
  exists r', input r' = b :: rest
    /\ readUntilSignificant C r true = (r', Some errSignificantInCont).
Proof.
  change (c "\") with 92. change (c "/") with 47.
  intros Hin Hws Hbs Hb Hbw Hbn Hb1 Hb2.
  unfold readUntilSignificant at 1. cbn [readUntilSignificant_loop].
  rewrite (peekRune_ascii r 92 _ Hin) by lia.
  rewrite Hbs. change (92 =? c "\") with true. cbn [andb].
  destruct (readUntilSignificant_loop_blanks ws (length (input r))
              (discardByte r) true true (b :: rest) Hws)
    as (r1 & Hi1 & Hd1 & He1).
  { rewrite input_discardByte, Hin. reflexivity. }
  { rewrite input_discardByte, Hin. cbn. lia. }
  rewrite He1. cbn [readUntilSignificant_loop].
  rewrite (peekRune_ascii r1 b _ Hi1) by lia.
  rewrite Hbw. apply Z.eqb_neq in Hb1 as Hb1'. change (c "\") with 92.
  rewrite Hb1'. cbn [andb]. rewrite Hbn.
  pose proof (isNext_head_differs r1 b _ 47 [47] Hi1 Hb2) as Hc1.
  pose proof (isNext_head_differs r1 b _ 47 [42] Hi1 Hb2) as Hc2.
  exists r1. split; [exact Hi1|].
  unfold charsStartComment, charsStartCommentBlock in *.
  destruct (isNext r1 [47; 47]) as [[] [e|]]; try congruence;
    destruct (isNext r1 [47; 42]) as [[] [e'|]]; try congruence; reflexivity.
Qed.

(** A backslash, blanks and a second backslash: the second one is taken
    as the first was, whatever follows. *)
Lemma readUntilSignificant_second_backslash r ws tail :
  input r = c "\" :: ws ++ c "\" :: tail ->
  asciiBlanks C ws ->
  isWhitespace C (c "\") = false ->
  exists r1, input r1 = c "\" :: tail
    /\ readUntilSignificant C r true = readUntilSignificant C r1 true.
Proof.
  change (c "\") with 92.
  intros Hin Hws Hbs.
  unfold readUntilSignificant at 1. cbn [readUntilSignificant_loop].
  rewrite (peekRune_ascii r 92 _ Hin) by lia.
  rewrite Hbs. change (92 =? c "\") with true. cbn [andb].
  destruct (readUntilSignificant_loop_blanks ws (length (input r))
              (discardByte r) true true (92 :: tail) Hws)
    as (r1 & Hi1 & Hd1 & He1).
  { rewrite input_discardByte, Hin. reflexivity. }
  { rewrite input_discardByte, Hin. cbn. lia. }
  exists r1. split; [exact Hi1|]. rewrite He1.
  unfold readUntilSignificant. rewrite Hi1.
  cbn [readUntilSignificant_loop length].
  rewrite (peekRune_ascii r1 92 _ Hi1) by lia.
  rewrite Hbs. change (92 =? c "\") with true. cbn [andb]. reflexivity.
Qed.

Lemma readUntilSignificant_loop_eof fuel r inside :
  asciiBlanks C (input r) ->
  (length (input r) < fuel)%nat ->
  exists r', readUntilSignificant_loop C fuel r inside false
             = (r', Some io_EOF)
             /\ input r' = [] /\ depth r' = depth r.
Proof.
  intros Hws Hf.
  destruct (readUntilSignificant_loop_blanks (input r) fuel r inside false
              [] Hws) as (r' & Hi & Hd & He).
  { by rewrite app_nil_r. } { exact Hf. }
  exists r'. rewrite He.
  cbn [length readUntilSignificant_loop]. rewrite (peekRune_nil r' Hi). auto.
Qed.


End Escline.

(** ** The node parser, for any rune classes and scanners *)

Section NodeParser.

Variable C : RuneClasses.
Variable Sc : Scanners.

Lemma readNodes_loop_S fuel r nodes :
  readNodes_loop C Sc (S fuel) r nodes =
  readNodes_turn C (readNode C Sc fuel) (readNodes_loop C Sc fuel) r nodes.
Proof. reflexivity. Qed.


Lemma readNode_loop_S fuel r node :
  readNode_loop C Sc (S fuel) r node =
  readNode_turn C Sc (readNodes C Sc fuel) (readNode_loop C Sc fuel) r node.
Proof. reflexivity. Qed.

Lemma readNodes_inner_S r :
  readNodes_inner C r = readNodes_inner_loop C (S (length (input r))) r.
Proof. reflexivity. Qed.

(** End of input between nodes: success at depth 0, [io.EOF] deeper. *)
Lemma readNodes_end_of_input fuel r nodes r1 :
  readUntilSignificant C r false = (r1, Some io_EOF) ->
  readNodes_loop C Sc (S fuel) r nodes
  = Some (r1, nodes, if depth r1 =? 0 then None else Some io_EOF).
Proof.
  intros H. rewrite readNodes_loop_S. unfold readNodes_turn.
  rewrite readNodes_inner_S. cbn [readNodes_inner_loop]. rewrite H.
  unfold eofAtTopLevel. cbn [is_EOF andb]. reflexivity.
Qed.

(** The same when the input ends right behind a [//] comment. *)
Lemma readNodes_end_behind_comment fuel r nodes r1 ch :
  readUntilSignificant C r false = (r1, None) ->
  peekRune r1 = (ch, Some io_EOF) ->
  readNodes_loop C Sc (S fuel) r nodes
  = Some (r1, nodes, if depth r1 =? 0 then None else Some io_EOF).
Proof.
  intros H Hp. rewrite readNodes_loop_S. unfold readNodes_turn.
  rewrite readNodes_inner_S. cbn [readNodes_inner_loop]. rewrite H, Hp.
  unfold eofAtTopLevel. cbn [is_EOF andb]. reflexivity.
Qed.

(** End of input right after a slashdash in front of a node. *)
Lemma readNodes_slashdash_then_end fuel r nodes r1 r3 :
  readNodes_inner C r = (r1, Break) ->
  isNext r1 charsSlashDash = (true, None) ->
  readUntilSignificant C (discardBytes r1 2) true = (r3, Some io_EOF) ->
  readNodes_loop C Sc (S fuel) r nodes
  = Some (r3, nodes, Some errUnexpectedSlashdash).
Proof.
  intros Hi Hs Hu. rewrite readNodes_loop_S. unfold readNodes_turn.
  rewrite Hi, Hs, Hu. reflexivity.
Qed.


(** A node that starts on the last byte of the input is never read: the
    look-ahead for the slashdash asks for two bytes and its [io.EOF] is
    returned. *)
Lemma readNodes_one_byte_left fuel r nodes r1 :
  readNodes_inner C r = (r1, Break) ->
  (length (input r1) < 2)%nat ->
  readNodes_loop C Sc (S fuel) r nodes = Some (r1, nodes, Some io_EOF).
Proof.
  intros H Hl. rewrite readNodes_loop_S. unfold readNodes_turn.
  rewrite H, isNext_short by exact Hl. reflexivity.
Qed.

(** The first loop of readNodes on a closing brace: the brace is consumed,
    also when the error for a brace at depth 0 has been chosen. *)
Lemma readNodes_inner_right_bracket r r1 :
  readUntilSignificant C r false = (r1, None) ->
  peekRune r1 = (c "}", None) ->
  isNewLine C (c "}") = false ->
  readNodes_inner C r
  = (discardByte r1,
     Return (if depth r1 =? 0 then Some errUnexpectedRightBracket else None)).
Proof.
  intros Hu Hp Hn. rewrite readNodes_inner_S. cbn [readNodes_inner_loop].
  rewrite Hu, Hp, Hn. reflexivity.
Qed.

(** A turn of the loop of readNode on a closing brace: the node ends and
    the brace is left in the input. *)
Lemma readNode_loop_right_bracket fuel r node r1 slashdash r3 :
  readUntilSignificant C r true = (r1, None) ->
  isNext r1 charsSlashDash = (slashdash, None) ->
  readUntilSignificant C (if slashdash then discardBytes r1 2 else r1) true
    = (r3, None) ->
  peekRune r3 = (c "}", None) ->
  isNewLine C (c "}") = false ->
  readNode_loop C Sc (S fuel) r node = Some (r3, node, endOfNode slashdash).
Proof.
  intros H1 Hs H3 Hp Hn. rewrite readNode_loop_S. unfold readNode_turn.
  rewrite H1, Hs. cbn [is_nil]. rewrite andb_true_r, H3, Hp, Hn.
  reflexivity.
Qed.

(** A turn of the loop of readNode on an opening brace. *)
Lemma readNode_loop_children fuel r node r1 slashdash r3 :
  readUntilSignificant C r true = (r1, None) ->
  isNext r1 charsSlashDash = (slashdash, None) ->
  readUntilSignificant C (if slashdash then discardBytes r1 2 else r1) true
    = (r3, None) ->
  peekRune r3 = (c "{", None) ->
  isNewLine C (c "{") = false ->
  readNode_loop C Sc (S fuel) r node =
  match readNodes C Sc fuel
          (setDepth (discardByte r3) (depth (discardByte r3) + 1)) with
  | None => None
  | Some (r6, _, Some e) => Some (r6, node, Some e)
  | Some (r6, children, None) =>
    readNode_loop C Sc fuel (discardByte (setDepth r6 (depth r6 - 1)))
      (if slashdash then node else AddChildren node children)
  end.
Proof.
  intros H1 Hs H3 Hp Hn. rewrite readNode_loop_S. unfold readNode_turn.
  rewrite H1, Hs. cbn [is_nil]. rewrite andb_true_r, H3, Hp, Hn.
  reflexivity.
Qed.

(** A turn of the loop of readNode on an argument or a property. *)
Lemma readNode_loop_arg_or_prop fuel r node r1 slashdash r3 ch :
  readUntilSignificant C r true = (r1, None) ->
  isNext r1 charsSlashDash = (slashdash, None) ->
  readUntilSignificant C (if slashdash then discardBytes r1 2 else r1) true
    = (r3, None) ->
  peekRune r3 = (ch, None) ->
  isNewLine C ch = false ->
  ch <> c ";" -> ch <> c "}" -> ch <> c "{" ->
  readNode_loop C Sc (S fuel) r node =
  match readArgOrProp C Sc r3 node slashdash with
  | (r4, node', Some e) => Some (r4, node', Some e)
  | (r4, node', None) => readNode_loop C Sc fuel r4 node'
  end.
Proof.
  intros H1 Hs H3 Hp Hn Ha Hb Hc. rewrite readNode_loop_S. unfold readNode_turn.
  rewrite H1, Hs. cbn [is_nil]. rewrite andb_true_r, H3, Hp, Hn.
  apply Z.eqb_neq in Ha, Hb, Hc. rewrite Ha, Hb, Hc. reflexivity.
Qed.

(** A turn of the outer loop of readNodes that reads a node. *)
Lemma readNodes_loop_node fuel r nodes r1 slashdash r3 :
  readNodes_inner C r = (r1, Break) ->
  isNext r1 charsSlashDash = (slashdash, None) ->
  readUntilSignificant C (if slashdash then discardBytes r1 2 else r1) true
    = (r3, None) ->
  readNodes_loop C Sc (S fuel) r nodes =
  match readNode C Sc fuel r3 with
  | None => None
  | Some (r4, _, Some e) => Some (r4, nodes, Some e)
  | Some (r4, node, None) =>
    readNodes_loop C Sc fuel r4 (if slashdash then nodes else nodes ++ [node])
  end.
Proof.
  intros Hi Hs Hu. rewrite readNodes_loop_S. unfold readNodes_turn.
  rewrite Hi, Hs, Hu. reflexivity.
Qed.

(** A children block closed by a brace that readNodes finds at [rb]: the
    loop of readNode goes on two bytes after [rb], the brace and the byte
    that follows it being both discarded. *)
Lemma readNode_loop_block_closed fuel r node r1 slashdash r3 rb :
  readUntilSignificant C r true = (r1, None) ->
  isNext r1 charsSlashDash = (slashdash, None) ->
  readUntilSignificant C (if slashdash then discardBytes r1 2 else r1) true
    = (r3, None) ->
  peekRune r3 = (c "{", None) ->
  isNewLine C (c "{") = false ->
  readUntilSignificant C
    (setDepth (discardByte r3) (depth (discardByte r3) + 1)) false
    = (rb, None) ->
  peekRune rb = (c "}", None) ->
  isNewLine C (c "}") = false ->
  depth rb <> 0 ->
  readNode_loop C Sc (S (S fuel)) r node
  = readNode_loop C Sc (S fuel)
      (discardByte (setDepth (discardByte rb) (depth (discardByte rb) - 1)))
      (if slashdash then node else AddChildren node [])
  /\ input (discardByte (setDepth (discardByte rb)
                           (depth (discardByte rb) - 1)))
     = tail (tail (input rb)).
Proof.
  intros H1 Hs H3 Hp Hn Hb Hpb Hnb Hd. split.
  - rewrite (readNode_loop_children (S fuel) r node r1 slashdash r3
               H1 Hs H3 Hp Hn).
    unfold readNodes. rewrite readNodes_loop_S. unfold readNodes_turn.
    rewrite (readNodes_inner_right_bracket _ rb Hb Hpb Hnb).
    apply Z.eqb_neq in Hd. rewrite Hd. reflexivity.
  - rewrite input_discardByte. cbn [setDepth input].
    rewrite input_discardByte. reflexivity.
Qed.

(** A block comment that is never closed, met between nodes at depth 0:
    readNodes returns the nodes read so far and no error. *)
Lemma readNodes_open_comment fuel r nodes s :
  input r = charsStartCommentBlock ++ s ->
  Forall (fun b => b <> c "/" /\ b <> c "*") s ->
  isWhitespace C (c "/") = false ->
  depth r = 0 ->
  exists r', readNodes_loop C Sc (S fuel) r nodes = Some (r', nodes, None).
Proof.
  intros Hin Hall Hws Hd.
  destruct (readUntilSignificant_open_comment C r false s Hin Hall Hws)
    as (r' & Hr' & Hd').
  exists r'. rewrite (readNodes_end_of_input fuel r nodes r' Hr').
  rewrite Hd', Hd. reflexivity.
Qed.

(** With [discard] set, readArgOrProp reads and fails exactly as without,
    and leaves the node as it was. *)
Lemma readArgOrProp_discard r dest :
  readArgOrProp C Sc r dest true =
  let '(r', _, err) := readArgOrProp C Sc r dest false in (r', dest, err).
Proof.
  unfold readArgOrProp, readArgOrProp_value.
  repeat (match goal with
  | |- context [match ?x with _ => _ end] => destruct x eqn:?; simpl
  end); try reflexivity.
Qed.

(** An error leaves the node passed to readArgOrProp untouched. *)
Lemma readArgOrProp_error r dest discard r' dest' e :
  readArgOrProp C Sc r dest discard = (r', dest', Some e) -> dest' = dest.
Proof.
  unfold readArgOrProp, readArgOrProp_value.
  repeat (match goal with
  | |- context [match ?x with _ => _ end] => destruct x eqn:?; simpl
  end); congruence.
Qed.

(** C7. In readArgOrProp, with no type hint and an identifier read in
    equals-stop mode: followed by the end of the input or by a valid
    terminator, a quoted identifier becomes a plain string argument and the
    call succeeds (the node stays as it was when the unit is suppressed),
    and a bare identifier is the unexpected-bare-identifier error; followed
    by [=], that byte is consumed and the value read next is stored as the
    property of that key. *)
Theorem readArgOrProp_identifier
    (r r1 r2 : reader) (dest : Node) (discard quoted : bool) (i : Identifier) :
  readMaybeTypeHint Sc r = (r1, NoHint, None) ->
  readIdentifier Sc r1 stopModeEquals = (r2, i, None, quoted) ->
  (((exists ch, peekRune r2 = (ch, Some io_EOF))
    \/ (exists ch, peekRune r2 = (ch, None)
                   /\ isValidValueTerminator C ch = true)) ->
   readArgOrProp C Sc r dest discard =
     if quoted
     then (r2, if discard then dest
               else AddArg dest (NewStringValue i NoHint), None)
     else (r2, dest, Some errUnexpectedBareIdentifier))
  /\
  (peekRune r2 = (c "=", None) ->
   isValidValueTerminator C (c "=") = false ->
   forall r4 v, readValue Sc (discardByte r2) = (r4, v, None) ->
     readArgOrProp C Sc r dest discard
       = (r4, if discard then dest else SetPropValue dest i v, None)
     /\ input (discardByte r2) = tail (input r2)
     /\ Props (SetPropValue dest i v) !! i = Some v).
Proof.
  intros Hh Hi. split.
  - intros [[ch Hp] | [ch [Hp Ht]]]; unfold readArgOrProp;
      rewrite Hh; cbn [IsAbsent NoHint]; rewrite Hi, Hp; cbn [is_EOF].
    + destruct quoted; reflexivity.
    + rewrite Ht. destruct quoted; reflexivity.
  - intros Hp Ht r4 v Hv. repeat split.
    + unfold readArgOrProp.
      rewrite Hh; cbn [IsAbsent NoHint]; rewrite Hi, Hp, Ht.
      rewrite Z.eqb_refl, Hv. reflexivity.
    + apply input_discardByte.
    + cbn. apply lookup_insert_eq.
Qed.

(** C9. A slashdash in front of a node, of an argument or property, or of
    a children block: the unit is read by the same calls, on the same
    bytes, as without the marker, an error in it ends the parse with that
    error, and only the step that would add the unit to the result is left
    out.  [slashdash] is what the look-ahead for the marker answered. *)
Theorem slashdash_suppresses_one_unit :
  (* a node *)
  (forall fuel r nodes r1 slashdash r3,
     readNodes_inner C r = (r1, Break) ->
     isNext r1 charsSlashDash = (slashdash, None) ->
     readUntilSignificant C (if slashdash then discardBytes r1 2 else r1) true
       = (r3, None) ->
     forall r4 node,
       (readNode C Sc fuel r3 = Some (r4, node, None) ->
        readNodes_loop C Sc (S fuel) r nodes =
        readNodes_loop C Sc fuel r4
          (if slashdash then nodes else nodes ++ [node]))
       /\ (forall e, readNode C Sc fuel r3 = Some (r4, node, Some e) ->
           readNodes_loop C Sc (S fuel) r nodes = Some (r4, nodes, Some e)))
  /\
  (* an argument or a property *)
  (forall fuel r node r1 slashdash r3 ch,
     readUntilSignificant C r true = (r1, None) ->
     isNext r1 charsSlashDash = (slashdash, None) ->
     readUntilSignificant C (if slashdash then discardBytes r1 2 else r1) true
       = (r3, None) ->
     peekRune r3 = (ch, None) ->
     isNewLine C ch = false ->
     ch <> c ";" -> ch <> c "}" -> ch <> c "{" ->
     forall r4 node',
       (readArgOrProp C Sc r3 node false = (r4, node', None) ->
        readNode_loop C Sc (S fuel) r node =
        readNode_loop C Sc fuel r4 (if slashdash then node else node'))
       /\ (forall e, readArgOrProp C Sc r3 node false = (r4, node', Some e) ->
           readNode_loop C Sc (S fuel) r node = Some (r4, node, Some e)))
  /\
  (* a children block *)
  (forall fuel r node r1 slashdash r3,
     readUntilSignificant C r true = (r1, None) ->
     isNext r1 charsSlashDash = (slashdash, None) ->
     readUntilSignificant C (if slashdash then discardBytes r1 2 else r1) true
       = (r3, None) ->
     peekRune r3 = (c "{", None) ->
     isNewLine C (c "{") = false ->
     forall r6 children,
       (readNodes C Sc fuel
          (setDepth (discardByte r3) (depth (discardByte r3) + 1))
        = Some (r6, children, None) ->
        readNode_loop C Sc (S fuel) r node =
        readNode_loop C Sc fuel (discardByte (setDepth r6 (depth r6 - 1)))
          (if slashdash then node else AddChildren node children))
       /\ (forall e,
           readNodes C Sc fuel
             (setDepth (discardByte r3) (depth (discardByte r3) + 1))
           = Some (r6, children, Some e) ->
           readNode_loop C Sc (S fuel) r node = Some (r6, node, Some e))).
Proof.
  split; [|split].
  - intros fuel r nodes r1 slashdash r3 Hi Hs Hu r4 node.
    rewrite (readNodes_loop_node fuel r nodes r1 slashdash r3 Hi Hs Hu).
    split; [intros -> | intros e ->]; reflexivity.
  - intros fuel r node r1 slashdash r3 ch H1 Hs H3 Hp Hn Ha Hb Hc r4 node'.
    rewrite (readNode_loop_arg_or_prop fuel r node r1 slashdash r3 ch
               H1 Hs H3 Hp Hn Ha Hb Hc).
    destruct slashdash.
    + rewrite readArgOrProp_discard.
      split; [intros -> | intros e ->]; reflexivity.
    + split; [intros -> | intros e He]; [reflexivity|].
      rewrite He. by rewrite (readArgOrProp_error _ _ _ _ _ _ He).
  - intros fuel r node r1 slashdash r3 H1 Hs H3 Hp Hn r6 children.
    rewrite (readNode_loop_children fuel r node r1 slashdash r3
               H1 Hs H3 Hp Hn).
    split; [intros -> | intros e ->]; reflexivity.
Qed.

End NodeParser.

(** ** Line comments and line breaks of several bytes *)

Section WideBreak.
Variable C : RuneClasses.

Lemma skipUntilNewLine_loop_rune_break text : forall fuel r b tl ch,
  input r = text ++ b :: tl ->
  noLineBreak C text (b :: tl) = true ->
  peekRune (wrapReader (b :: tl)) = (ch, None) ->
  isNewLine C ch = true ->
  isNext (wrapReader (b :: tl)) charsCRLF <> (true, None) ->
  (length text < fuel)%nat ->
  exists r', skipUntilNewLine_loop C fuel r true = (r', None)
             /\ input r' = tl /\ depth r' = depth r.
Proof.
  induction text as [|a text IH]; intros fuel r b tl ch Hin Hno Hp Hn Hc Hf.
  - destruct fuel as [|fuel]; [simpl in Hf; lia|]. cbn [app] in Hin.
    cbn [skipUntilNewLine_loop].
    rewrite (isNext_input r (wrapReader (b :: tl))) by exact Hin.
    rewrite (peekRune_input r (wrapReader (b :: tl))) by exact Hin.
    rewrite Hp, Hn. exists (discardByte r).
    rewrite input_discardByte, depth_discardByte, Hin.
    destruct (isNext (wrapReader (b :: tl)) charsCRLF) as [[] [e|]];
      try congruence; auto.
  - destruct fuel as [|fuel]; [simpl in Hf; lia|].
    cbn [noLineBreak] in Hno. apply andb_true_iff in Hno as [Hb Hno].
    apply negb_true_iff in Hb. rewrite <- Hin in Hb.
    apply atLineBreak_false in Hb as [Hcrlf Hpeek].
    cbn [skipUntilNewLine_loop].
    assert (Hq : exists x, peekRune r = (x, None)).
    { unfold peekRune, ReadRune. rewrite Hin. cbn [app].
      destruct (DecodeRune _) as [x sz]. eauto. }
    destruct Hq as [x Hq]. rewrite Hq, (Hpeek x Hq).
    destruct (IH fuel (discardByte r) b tl ch) as (r' & Hr' & Hi' & Hd');
      try assumption.
    { rewrite input_discardByte, Hin. reflexivity. }
    { simpl in Hf. lia. }
    exists r'. rewrite Hd', depth_discardByte.
    destruct (isNext r charsCRLF) as [[] [e|]]; try congruence; auto.
Qed.

(** A [//] comment ended by a line-break rune that is not part of CR LF:
    readUntilSignificant consumes the comment and one byte, the first of
    the rune, whatever the length of its encoding. *)
Lemma readUntilSignificant_line_comment_one_byte r inside text b tl ch :
  input r = charsStartComment ++ text ++ b :: tl ->
  isWhitespace C (c "/") = false ->
  noLineBreak C text (b :: tl) = true ->
  peekRune (wrapReader (b :: tl)) = (ch, None) ->
  isNewLine C ch = true ->
  isNext (wrapReader (b :: tl)) charsCRLF <> (true, None) ->
  exists r', readUntilSignificant C r inside = (r', None)
             /\ input r' = tl /\ depth r' = depth r.
Proof.
  intros Hin Hws Hno Hp Hn Hc.
  unfold readUntilSignificant. cbn [readUntilSignificant_loop].
  change (c "/") with 47 in Hws.
  rewrite (peekRune_ascii r 47 (47 :: text ++ b :: tl))
    by (exact Hin || lia).
  rewrite Hws. change (47 =? c "\") with false. cbn [andb].
  assert (Hs : isNext r charsStartComment = (true, None)).
  { apply isNext_true. eauto. }
  rewrite Hs.
  destruct (skipUntilNewLine_loop_rune_break text
              (S (length (input (discardBytes r 2))))
              (discardBytes r 2) b tl ch) as (r' & Hr' & Hi' & Hd');
    try assumption.
  - rewrite input_discardBytes, Hin. reflexivity.
  - rewrite input_discardBytes, Hin.
    change (drop 2 (charsStartComment ++ text ++ b :: tl))
      with (text ++ b :: tl).
    rewrite length_app. lia.
  - exists r'. unfold skipUntilNewLine. rewrite Hr', Hd', depth_discardBytes.
    auto.
Qed.

End WideBreak.

(** ** Where the errors of the parser come from *)

Section ErrorOrigin.

Variable C : RuneClasses.
Variable Sc : Scanners.











End ErrorOrigin.


(** ** The scanners of [KDL] on the inputs of read_value_test.go *)

Section ScannerTests.

Example test_ReadsQuotedString :
  KDL.scanAll KDL.readQuotedString 4 (wrapReader Doc.testQuoted)
  = [("Hi!"%string, None);
     (KDL.string_of_bytes (bytes "Why, " ++ [34] ++ bytes "hello " ++ [10] ++ bytes "there!"),
      None);
     (KDL.string_of_bytes (bytes "foo" ++ [10; 9; 10; 34] ++ bytes "bar"), None);
     (EmptyString, Some ErrInvalidSyntax)].
Proof. vm_compute. reflexivity. Qed.

Example test_ReadsRawString :
  KDL.scanAll KDL.readRawString 2 (wrapReader Doc.testRaw)
  = [(KDL.string_of_bytes (bytes "oh" ++ [10; 9] ++ bytes "Hi" ++ [34] ++ bytes "##there##!"
            ++ [10]), None);
     (EmptyString, Some io_EOF)].
Proof. vm_compute. reflexivity. Qed.

Example test_ReadsNumberDecimal :
  map fst (KDL.scanAll KDL.readNumber 10 (wrapReader Doc.testDecimal))
  = [NewFloatValue 0 (-1) NoHint; NewIntegerValue 0 NoHint;
     NewIntegerValue 4 NoHint; NewIntegerValue 2 NoHint;
     NewIntegerValue (-6) NoHint; NewIntegerValue 1337 NoHint;
     NewIntegerValue 4000 NoHint; NewIntegerValue 2000 NoHint;
     NewFloatValue 7 (-2) NoHint; NewFloatValue (-11) (-3) NoHint].
Proof. vm_compute. reflexivity. Qed.

Example test_ReadsNumberRadix :
  KDL.scanAll KDL.readNumber 7 (wrapReader Doc.testRadix)
  = map (fun z => (NewIntegerValue z NoHint, None))
        [12; 2575; -210; 8; -22; 1; -129].
Proof. vm_compute. reflexivity. Qed.

Example test_ReadsBareIdentifier :
  snd (KDL.readBareIdentifier (wrapReader (bytes "012")) stopModeFreestanding)
  = Some errInvalidInitialCharInBareIdent
  /\ snd (KDL.readBareIdentifier (wrapReader (bytes "-12")) stopModeFreestanding)
     = Some errInvalidBareIdent
  /\ KDL.readBareIdentifier (wrapReader (bytes "-cool")) stopModeFreestanding
     = (mkReader [] 1 5 0, "-cool"%string, None)
  /\ KDL.readBareIdentifier (wrapReader (bytes "def ")) stopModeFreestanding
     = (mkReader (bytes " ") 1 3 0, "def"%string, None).
Proof. repeat split; vm_compute; reflexivity. Qed.

Example test_ReadsIdentifier :
  KDL.scanAll (fun r => let '(r1, i, e, _) :=
                          KDL.readIdentifier r stopModeFreestanding in
                        (r1, i, e))
    4 (wrapReader Doc.testIdentifiers)
  = [("foo"%string, None); ("bar baz"%string, None);
     ("radio"%string, None); ("gaga"%string, None)].
Proof. vm_compute. reflexivity. Qed.

Example test_ReadsTypeHint :
  KDL.readMaybeTypeHint (wrapReader (bytes "(foo)"))
  = (mkReader [] 1 5 0, Hint "foo", None)
  /\ snd (KDL.readMaybeTypeHint (wrapReader (bytes "(bar baz)")))
     = Some ErrInvalidSyntax
  /\ snd (KDL.readMaybeTypeHint (wrapReader (bytes "(aaaaa")))
     = Some ErrUnexpectedEOF
  /\ snd (KDL.readMaybeTypeHint
            (wrapReader (bytes "(" ++ [34] ++ bytes "hello\" ++ [34]
                         ++ bytes ")")))
     = Some ErrUnexpectedEOF.
Proof. repeat split; vm_compute; reflexivity. Qed.

Example test_ReadsValue :
  KDL.scanAll KDL.readValue 5 (wrapReader Doc.testValues)
  = [(NewBoolValue true NoHint, None);
     (NewFloatValue (-35) (-1) (Hint "temp"), None);
     (NewNullValue (Hint "hey"), None);
     (NewStringValue "foo" NoHint, None);
     (NewNullValue NoHint, Some ErrInvalidSyntax)].
Proof. vm_compute. reflexivity. Qed.

End ScannerTests.

(** ** The parser run on documents *)

Section Documents.

(** C1. readNodes on [node 1 key="val" { child; }] succeeds with exactly
    one node: name [node], the integer 1 as only argument, the property
    [key] bound to the string [val] and no other, and one child [child]
    without arguments, properties or children. *)
Theorem parse_round_trip :
  exists r, KDL.parse Doc.roundTrip = Some (r, [Doc.roundTripNode], None).
Proof.
  exists (mkReader [] 1 28 0). vm_compute. reflexivity.
Qed.

(** What [Doc.roundTripNode] holds, read through the accessors. *)
Lemma roundTripNode_fields :
  Name Doc.roundTripNode = "node"%string
  /\ Args Doc.roundTripNode = [NewIntegerValue 1 NoHint]
  /\ Props Doc.roundTripNode !! "key"%string = Some (NewStringValue "val" NoHint)
  /\ dom (Props Doc.roundTripNode) = ({[ "key"%string ]} : gset string)
  /\ Children Doc.roundTripNode = [NewNode "child"].
Proof.
  repeat split.
Qed.

(** C2. After the children block of [a {}] the reader is not on the byte
    that follows the closing brace: readNodes has consumed the brace and
    readNode discards one byte more, here the line feed.  The loop of
    readNode goes on at [b] on line 2, takes it for an argument of [a], and
    the document of two nodes is rejected. *)
Theorem children_block_consumes_byte_after_brace :
  (forall fuel node,
     readNode_loop KDL.classes KDL.scanners (S (S fuel)) (mkReader Doc.blockBody 1 2 0) node
     = readNode_loop KDL.classes KDL.scanners (S fuel) (mkReader (bytes "b") 2 0 0) node)
  /\ KDL.parse Doc.blockThenLine
     = Some (mkReader [] 2 1 0, [], Some errUnexpectedBareIdentifier).
Proof.
  split; [|vm_compute; reflexivity].
  intros fuel node.
  rewrite (readNode_loop_children KDL.classes KDL.scanners (S fuel) (mkReader Doc.blockBody 1 2 0)
             node (mkReader Doc.blockBody 1 2 0) false
             (mkReader Doc.blockBody 1 2 0))
    by (vm_compute; reflexivity).
  unfold readNodes. rewrite readNodes_loop_S. unfold readNodes_turn.
  replace (readNodes_inner KDL.classes
             (setDepth (discardByte (mkReader Doc.blockBody 1 2 0))
                (depth (discardByte (mkReader Doc.blockBody 1 2 0)) + 1)))
    with (mkReader ([10] ++ bytes "b") 1 4 1, Return None)
    by (vm_compute; reflexivity).
  cbn [AddChildren foldl].
  replace (discardByte
             (setDepth (mkReader ([10] ++ bytes "b") 1 4 1)
                (depth (mkReader ([10] ++ bytes "b") 1 4 1) - 1)))
    with (mkReader (bytes "b") 2 0 0) by (vm_compute; reflexivity).
  reflexivity.
Qed.

(** C3. A document that is the single byte [a], a complete node followed
    by the end of the input, is not parsed: the look-ahead for a slashdash
    asks for two bytes, and readNodes returns its [io.EOF] with no node.
    This holds whatever the scanners are and for any amount of fuel. *)
Theorem one_byte_document_fails :
  forall (Sc' : Scanners) (fuel : nat),
    readNodes KDL.classes Sc' (S fuel) (wrapReader Doc.oneByte)
    = Some (wrapReader Doc.oneByte, [], Some io_EOF).
Proof.
  intros Sc' fuel. unfold readNodes.
  apply readNodes_one_byte_left; vm_compute; [reflexivity | lia].
Qed.

(** C4. A block comment that is opened and never closed does not make the
    parse fail: readUntilSignificant returns [io.EOF] from inside the
    comment, and readNodes at depth 0 takes it for the end of the
    document. *)
Theorem unterminated_comment_accepted :
  forall (Sc' : Scanners) (fuel : nat),
    readUntilSignificant KDL.classes (wrapReader Doc.openComment) false
    = (mkReader (bytes "c") 1 5 0, Some io_EOF)
    /\ readNodes KDL.classes Sc' (S fuel) (wrapReader Doc.openComment)
       = Some (mkReader (bytes "c") 1 5 0, [], None).
Proof.
  intros Sc' fuel.
  assert (H : readUntilSignificant KDL.classes (wrapReader Doc.openComment) false
              = (mkReader (bytes "c") 1 5 0, Some io_EOF))
    by (vm_compute; reflexivity).
  split; [exact H|].
  unfold readNodes. rewrite (readNodes_end_of_input KDL.classes Sc' fuel _ _ _ H).
  reflexivity.
Qed.

(** A closed nested block comment is skipped as one unit. *)
Lemma nested_comment_skipped :
  readUntilSignificant KDL.classes (wrapReader Doc.nestedComment) false
  = (mkReader (bytes "xy") 1 11 0, None)
  /\ KDL.parse Doc.nestedComment
     = Some (mkReader [] 1 13 0, [NewNode "xy"], None).
Proof. split; vm_compute; reflexivity. Qed.

(** A closing brace at the top level: readNodes returns its error with the
    brace consumed, the reader one column further than where it found
    it. *)
Lemma stray_brace_consumed :
  KDL.parse Doc.strayBrace
  = Some (mkReader [] 1 1 0, [], Some errUnexpectedRightBracket)
  /\ readUntilSignificant KDL.classes (wrapReader Doc.strayBrace) false
     = (wrapReader Doc.strayBrace, None)
  /\ peekRune (wrapReader Doc.strayBrace) = (c "}", None).
Proof. repeat split; vm_compute; reflexivity. Qed.


(** C6. readRune on a carriage return followed by [a] returns the carriage
    return and consumes [a] as well: the rune read to look for a line feed
    is put back only when it is one. *)
Theorem readRune_consumes_rune_after_cr :
  readRune KDL.classes (wrapReader Doc.crThenLetters)
  = (mkReader (bytes "b") 2 0 0, 13, None).
Proof. vm_compute. reflexivity. Qed.

(** C8. A second backslash while a line continuation is pending is not an
    error: both backslashes and the line feed are swallowed, and the node
    goes on with the argument of the next line. *)
Theorem second_backslash_accepted :
  readUntilSignificant KDL.classes (wrapReader Doc.twoBackslashes) true
  = (mkReader (bytes "1") 2 0 0, None)
  /\ KDL.parse Doc.nodeTwoBackslashes
     = Some (mkReader [] 2 1 0,
             [AddArg (NewNode "a") (NewIntegerValue 1 NoHint)], None).
Proof. split; vm_compute; reflexivity. Qed.

(** One backslash, blanks and a line feed are swallowed; a backslash
    followed by a token on the same line is the escline error. *)
Lemma escline_examples :
  readUntilSignificant KDL.classes (wrapReader Doc.escline) true
  = (mkReader (bytes "1") 2 0 0, None)
  /\ readUntilSignificant KDL.classes (wrapReader Doc.backslashThenToken) true
     = (mkReader (bytes "1") 1 2 0, Some errSignificantInCont).
Proof. split; vm_compute; reflexivity. Qed.

(** Suppressed units of every kind leave the node with what was not
    suppressed; a malformed suppressed argument fails the parse. *)
Lemma slashdash_examples :
  KDL.parse Doc.suppressedUnits
  = Some (mkReader [] 1 33 0,
          [mkNode NoHint "a" [NewIntegerValue 2 NoHint]
             {[ "j"%string := NewIntegerValue 3 NoHint ]} [NewNode "cc"]],
          None)
  /\ KDL.parse Doc.suppressedMalformed
     = Some (mkReader (bytes " 2") 1 6 0, [], Some ErrInvalidSyntax).
Proof. split; vm_compute; reflexivity. Qed.

(** A node and its argument, a comment, and an argument on the next line:
    one node with both arguments. *)
Lemma line_comment_example :
  KDL.parse Doc.nodeCommentThenLine
  = Some (mkReader [] 2 1 0,
          [AddArg (AddArg (NewNode "a") (NewIntegerValue 1 NoHint))
             (NewIntegerValue 2 NoHint)],
          None).
Proof. vm_compute. reflexivity. Qed.

(** C10. A [//] comment ended by NEL, a line break two bytes long, is not
    skipped together with its line break: skipUntilNewLine discards one
    byte for the rune, readUntilSignificant returns with the second byte
    of NEL still in the input, and the node [a 1 // c], NEL, [2] is
    rejected instead of getting [2] as its second argument.  Ended by a
    line feed, the same comment goes with its line break and the body of
    the node continues on the next line: the node has both arguments. *)
Theorem line_comment_splits_wide_line_break :
  isNewLine KDL.classes 133 = true
  /\ peekRune (wrapReader ([194; 133] ++ bytes "2")) = (133, None)
  /\ readUntilSignificant KDL.classes (wrapReader Doc.commentThenNel) true
     = (mkReader [133; 50] 1 5 0, None)
  /\ KDL.parse Doc.nodeCommentThenNel
     = Some (mkReader [] 1 11 0, [], Some errUnexpectedBareIdentifier)
  /\ KDL.parse Doc.nodeCommentThenLine
     = Some (mkReader [] 2 1 0,
             [AddArg (AddArg (NewNode "a") (NewIntegerValue 1 NoHint))
                (NewIntegerValue 2 NoHint)],
             None).
Proof. repeat split; vm_compute; reflexivity. Qed.

End Documents.

(** ** The general statements at concrete readers *)

Section Witnesses.

(** [readArgOrProp_identifier] on ["v"] followed by a blank, and on
    [k=1]. *)
Lemma readArgOrProp_identifier_witness :
  (readMaybeTypeHint KDL.scanners (wrapReader Doc.quotedThenBlank)
   = (wrapReader Doc.quotedThenBlank, NoHint, None)
   /\ readIdentifier KDL.scanners (wrapReader Doc.quotedThenBlank) stopModeEquals
      = (mkReader (bytes " ;") 1 3 0, "v"%string, None, true)
   /\ peekRune (mkReader (bytes " ;") 1 3 0) = (32, None)
   /\ isValidValueTerminator KDL.classes 32 = true
   /\ readArgOrProp KDL.classes KDL.scanners (wrapReader Doc.quotedThenBlank) (NewNode "n") false
      = (mkReader (bytes " ;") 1 3 0,
         AddArg (NewNode "n") (NewStringValue "v" NoHint), None))
  /\
  (readMaybeTypeHint KDL.scanners (wrapReader Doc.keyEqualsValue)
   = (wrapReader Doc.keyEqualsValue, NoHint, None)
   /\ readIdentifier KDL.scanners (wrapReader Doc.keyEqualsValue) stopModeEquals
      = (mkReader (bytes "=1 ") 1 1 0, "k"%string, None, false)
   /\ peekRune (mkReader (bytes "=1 ") 1 1 0) = (c "=", None)
   /\ isValidValueTerminator KDL.classes (c "=") = false
   /\ readValue KDL.scanners (discardByte (mkReader (bytes "=1 ") 1 1 0))
      = (mkReader (bytes " ") 1 3 0, NewIntegerValue 1 NoHint, None)
   /\ readArgOrProp KDL.classes KDL.scanners (wrapReader Doc.keyEqualsValue) (NewNode "n") false
      = (mkReader (bytes " ") 1 3 0,
         SetPropValue (NewNode "n") "k" (NewIntegerValue 1 NoHint), None)).
Proof.
  assert (A1 : readMaybeTypeHint KDL.scanners (wrapReader Doc.quotedThenBlank)
               = (wrapReader Doc.quotedThenBlank, NoHint, None))
    by (vm_compute; reflexivity).
  assert (A2 : readIdentifier KDL.scanners (wrapReader Doc.quotedThenBlank) stopModeEquals
               = (mkReader (bytes " ;") 1 3 0, "v"%string, None, true))
    by (vm_compute; reflexivity).
  assert (A3 : peekRune (mkReader (bytes " ;") 1 3 0) = (32, None))
    by (vm_compute; reflexivity).
  assert (A4 : isValidValueTerminator KDL.classes 32 = true)
    by (vm_compute; reflexivity).
  assert (B1 : readMaybeTypeHint KDL.scanners (wrapReader Doc.keyEqualsValue)
               = (wrapReader Doc.keyEqualsValue, NoHint, None))
    by (vm_compute; reflexivity).
  assert (B2 : readIdentifier KDL.scanners (wrapReader Doc.keyEqualsValue) stopModeEquals
               = (mkReader (bytes "=1 ") 1 1 0, "k"%string, None, false))
    by (vm_compute; reflexivity).
  assert (B3 : peekRune (mkReader (bytes "=1 ") 1 1 0) = (c "=", None))
    by (vm_compute; reflexivity).
  assert (B4 : isValidValueTerminator KDL.classes (c "=") = false)
    by (vm_compute; reflexivity).
  assert (B5 : readValue KDL.scanners (discardByte (mkReader (bytes "=1 ") 1 1 0))
               = (mkReader (bytes " ") 1 3 0, NewIntegerValue 1 NoHint, None))
    by (vm_compute; reflexivity).
  split.
  - repeat (split; [assumption|]).
    exact (proj1 (readArgOrProp_identifier KDL.classes KDL.scanners _ _ _ (NewNode "n") false true
                    "v"%string A1 A2)
             (or_intror (ex_intro _ 32 (conj A3 A4)))).
  - repeat (split; [assumption|]).
    exact (proj1 (proj2 (readArgOrProp_identifier KDL.classes KDL.scanners _ _ _ (NewNode "n")
                           false false "k"%string B1 B2)
                    B3 B4 _ _ B5)).
Defined.

(** [slashdash_suppresses_one_unit] on a suppressed node, a suppressed
    argument and a suppressed children block. *)
Lemma slashdash_suppresses_one_unit_witness :
  (* the node [a] of [/-a], before the node [bb] *)
  (readNodes_inner KDL.classes (wrapReader Doc.suppressedNode)
   = (wrapReader Doc.suppressedNode, Break)
   /\ isNext (wrapReader Doc.suppressedNode) charsSlashDash = (true, None)
   /\ readUntilSignificant KDL.classes (discardBytes (wrapReader Doc.suppressedNode) 2) true
      = (mkReader (bytes "a" ++ [10] ++ bytes "bb") 1 2 0, None)
   /\ readNode KDL.classes KDL.scanners 5 (mkReader (bytes "a" ++ [10] ++ bytes "bb") 1 2 0)
      = Some (mkReader (bytes "bb") 2 0 0, NewNode "a", None)
   /\ readNodes_loop KDL.classes KDL.scanners 6 (wrapReader Doc.suppressedNode) []
      = readNodes_loop KDL.classes KDL.scanners 5 (mkReader (bytes "bb") 2 0 0) [])
  /\
  (* the argument 1 of [/-1 2] *)
  (readUntilSignificant KDL.classes (wrapReader Doc.suppressedArg) true
   = (mkReader (bytes "/-1 2") 1 1 0, None)
   /\ isNext (mkReader (bytes "/-1 2") 1 1 0) charsSlashDash = (true, None)
   /\ readUntilSignificant KDL.classes (discardBytes (mkReader (bytes "/-1 2") 1 1 0) 2) true
      = (mkReader (bytes "1 2") 1 3 0, None)
   /\ peekRune (mkReader (bytes "1 2") 1 3 0) = (c "1", None)
   /\ readArgOrProp KDL.classes KDL.scanners (mkReader (bytes "1 2") 1 3 0) (NewNode "a") false
      = (mkReader (bytes " 2") 1 4 0,
         AddArg (NewNode "a") (NewIntegerValue 1 NoHint), None)
   /\ readNode_loop KDL.classes KDL.scanners 4 (wrapReader Doc.suppressedArg) (NewNode "a")
      = readNode_loop KDL.classes KDL.scanners 3 (mkReader (bytes " 2") 1 4 0) (NewNode "a"))
  /\
  (* the children block of [/-{ b } 2] *)
  (readUntilSignificant KDL.classes (wrapReader Doc.suppressedChildren) true
   = (mkReader (bytes "/-{ b } 2") 1 1 0, None)
   /\ isNext (mkReader (bytes "/-{ b } 2") 1 1 0) charsSlashDash = (true, None)
   /\ readUntilSignificant KDL.classes
        (discardBytes (mkReader (bytes "/-{ b } 2") 1 1 0) 2) true
      = (mkReader (bytes "{ b } 2") 1 3 0, None)
   /\ peekRune (mkReader (bytes "{ b } 2") 1 3 0) = (c "{", None)
   /\ readNodes KDL.classes KDL.scanners 6
        (setDepth (discardByte (mkReader (bytes "{ b } 2") 1 3 0))
           (depth (discardByte (mkReader (bytes "{ b } 2") 1 3 0)) + 1))
      = Some (mkReader (bytes " 2") 1 8 1, [NewNode "b"], None)
   /\ readNode_loop KDL.classes KDL.scanners 7 (wrapReader Doc.suppressedChildren) (NewNode "a")
      = readNode_loop KDL.classes KDL.scanners 6
          (discardByte (setDepth (mkReader (bytes " 2") 1 8 1)
                          (depth (mkReader (bytes " 2") 1 8 1) - 1)))
          (NewNode "a")).
Proof.
  assert (N1 : readNodes_inner KDL.classes (wrapReader Doc.suppressedNode)
               = (wrapReader Doc.suppressedNode, Break))
    by (vm_compute; reflexivity).
  assert (N2 : isNext (wrapReader Doc.suppressedNode) charsSlashDash
               = (true, None)) by (vm_compute; reflexivity).
  assert (N3 : readUntilSignificant KDL.classes
                 (discardBytes (wrapReader Doc.suppressedNode) 2) true
               = (mkReader (bytes "a" ++ [10] ++ bytes "bb") 1 2 0, None))
    by (vm_compute; reflexivity).
  assert (N4 : readNode KDL.classes KDL.scanners 5 (mkReader (bytes "a" ++ [10] ++ bytes "bb") 1 2 0)
               = Some (mkReader (bytes "bb") 2 0 0, NewNode "a", None))
    by (vm_compute; reflexivity).
  assert (A1 : readUntilSignificant KDL.classes (wrapReader Doc.suppressedArg) true
               = (mkReader (bytes "/-1 2") 1 1 0, None))
    by (vm_compute; reflexivity).
  assert (A2 : isNext (mkReader (bytes "/-1 2") 1 1 0) charsSlashDash
               = (true, None)) by (vm_compute; reflexivity).
  assert (A3 : readUntilSignificant KDL.classes
                 (discardBytes (mkReader (bytes "/-1 2") 1 1 0) 2) true
               = (mkReader (bytes "1 2") 1 3 0, None))
    by (vm_compute; reflexivity).
  assert (A4 : peekRune (mkReader (bytes "1 2") 1 3 0) = (c "1", None))
    by (vm_compute; reflexivity).
  assert (A5 : readArgOrProp KDL.classes KDL.scanners (mkReader (bytes "1 2") 1 3 0) (NewNode "a")
                 false
               = (mkReader (bytes " 2") 1 4 0,
                  AddArg (NewNode "a") (NewIntegerValue 1 NoHint), None))
    by (vm_compute; reflexivity).
  assert (K1 : readUntilSignificant KDL.classes (wrapReader Doc.suppressedChildren) true
               = (mkReader (bytes "/-{ b } 2") 1 1 0, None))
    by (vm_compute; reflexivity).
  assert (K2 : isNext (mkReader (bytes "/-{ b } 2") 1 1 0) charsSlashDash
               = (true, None)) by (vm_compute; reflexivity).
  assert (K3 : readUntilSignificant KDL.classes
                 (discardBytes (mkReader (bytes "/-{ b } 2") 1 1 0) 2) true
               = (mkReader (bytes "{ b } 2") 1 3 0, None))
    by (vm_compute; reflexivity).
  assert (K4 : peekRune (mkReader (bytes "{ b } 2") 1 3 0) = (c "{", None))
    by (vm_compute; reflexivity).
  assert (K5 : readNodes KDL.classes KDL.scanners 6
                 (setDepth (discardByte (mkReader (bytes "{ b } 2") 1 3 0))
                    (depth (discardByte (mkReader (bytes "{ b } 2") 1 3 0)) + 1))
               = Some (mkReader (bytes " 2") 1 8 1, [NewNode "b"], None))
    by (vm_compute; reflexivity).
  destruct (slashdash_suppresses_one_unit KDL.classes KDL.scanners) as (Hnode & Harg & Hkids).
  split; [|split].
  - repeat (split; [assumption|]).
    exact (proj1 (Hnode 5%nat _ [] _ true _ N1 N2 N3 _ _) N4).
  - repeat (split; [assumption|]).
    refine (proj1 (Harg 3%nat _ (NewNode "a") _ true _ (c "1") A1 A2 A3 A4
                     _ _ _ _ _ _) A5); vm_compute; congruence.
  - repeat (split; [assumption|]).
    refine (proj1 (Hkids 6%nat _ (NewNode "a") _ true _ K1 K2 K3 K4 _ _ _) K5).
    vm_compute; reflexivity.
Defined.


End Witnesses.
